(** * espcam/appfinal.py: hands-up detection pipeline

    A shallow embedding of the Flask application in [src/espcam/appfinal.py]:
    the upload route, the single-slot hand-off to the worker thread, the
    frame processing with its hands-up heuristic, the alert threads and the
    latest-frame route.

    The development has two layers.
    - The functions of the source ([send_email], [send_sms], [process_frame],
      the body of [frame_worker], [latest], [upload]) are written in a small
      state-and-exception monad over the module's globals.  Python floats are
      Rocq's primitive binary64 floats.
    - The threads of the program (the worker, the request handlers, the alert
      threads) are interleaved by an executable step function that follows
      the program counter of each thread and the holder of [frame_lock]. *)

From Stdlib Require Import ZArith NArith List String Ascii Bool Lia.
From Stdlib Require Import Strings.Byte.
From Stdlib Require Import DecimalString Floats.
From Stdlib Require Import DecimalPos DecimalZ.
Import ListNotations.

#[local] Set Warnings "-inexact-float".

(** ** Data *)

(** A numpy array of dtype uint8: its shape (rows, columns, channels) and its
    bytes in row-major order. *)
Record ndarray := mk_ndarray {
  shape : N * N * N;
  data : list byte
}.

(** [np.zeros(shape, dtype=np.uint8)] *)
Definition np_zeros (shp : N * N * N) : ndarray :=
  let '(rows, cols, channels) := shp in
  {| shape := shp; data := repeat x00 (N.to_nat (rows * cols * channels)) |}.

(** [a.copy()]: a fresh array with the same contents.  Arrays are values
    here; the only in-place update of the source ([draw_landmarks]) acts on
    the worker's private copy. *)
Definition ndarray_copy (a : ndarray) : ndarray := a.

(** A mediapipe [NormalizedLandmark]. *)
Record NormalizedLandmark := mk_landmark {
  x : float;
  y : float;
  z : float;
  visibility : float
}.

(** [mp_pose.PoseLandmark.<NAME>.value], the indices mediapipe assigns. *)
Definition LEFT_SHOULDER : nat := 11.
Definition RIGHT_SHOULDER : nat := 12.
Definition LEFT_WRIST : nat := 15.
Definition RIGHT_WRIST : nat := 16.

(** A Python exception, by what it reports. *)
Inductive exn := Exception (what : string).

(** The outcome of a call that may raise. *)
Inductive result (A : Type) :=
| Ok (a : A)
| Raise (e : exn).
Arguments Ok {A} a.
Arguments Raise {A} e.

(** The MIME message [send_email] builds. *)
Record email := mk_email {
  Subject : string;
  From_ : option string;
  To : option string;
  text : string;
  image_name : string;
  image : ndarray
}.

(** What left the process towards a recipient. *)
Inductive notification :=
| EmailNotification (msg : email)
| SmsNotification (body : string) (from_ to : option string).

(** The lines the program prints, by kind (the clock prefix and the wording
    of a line are left out). *)
Inductive message :=
| EmailSent
| EmailFailed (e : exn)
| TwilioNotInstalled
| SmsSent (sid : string)
| SmsFailed (e : exn)
| NoPoseDetected
| WristShoulder (lw_y ls_y rw_y rs_y : float)
| HandsUp (hands_up : bool)
| SendingAlert
| UploadFailed (e : exn).

(** The target of a [threading.Thread(...)] the program starts. *)
Inductive target :=
| send_email_target (image_path : string)
| send_sms_target.

(** A Flask response. *)
Record response := mk_response {
  body : list byte;
  status : Z;
  mimetype : string
}.

(** A twilio client object: [client.messages.create(body, from_, to)] gives
    the message's SID or raises. *)
Record twilio_client := mk_twilio_client {
  messages_create : string -> option string -> option string -> result string
}.

(** ** The external collaborators

    OpenCV's codec, mediapipe's estimator and drawer, the SMTP server, the
    twilio package and the process environment are not part of the source.
    Each is a field of [Env]; the program is defined over any of them. *)
Record Env := mk_Env {
  (* cv2 *)
  imdecode : list byte -> result (option ndarray);
  imencode : string -> ndarray -> result (bool * list byte);
  cvtColor_BGR2RGB : ndarray -> ndarray;
  (* mediapipe: [pose.process] gives [results.pose_landmarks] (None when no
     pose is found) or raises; [drawer.draw_landmarks] paints the skeleton *)
  pose_process : ndarray -> result (option (list NormalizedLandmark));
  draw_landmarks : ndarray -> list NormalizedLandmark -> ndarray;
  (* smtplib.SMTP('smtp.gmail.com', 587, timeout=10) and its methods *)
  smtp_connect : result unit;
  smtp_starttls : result unit;
  smtp_login : option string -> option string -> result unit;
  smtp_send_message : email -> result unit;
  smtp_quit : result unit;
  (* [from twilio.rest import Client as TwilioClient], None when the import
     failed *)
  TwilioClient : option (option string -> option string -> result twilio_client);
  (* os.getenv *)
  EMAIL_USER : option string;
  EMAIL_PASS : option string;
  TO_EMAIL : option string;
  TWILIO_SID : option string;
  TWILIO_AUTH : option string;
  TWILIO_FROM : option string;
  TWILIO_TO : option string
}.

(** ** The globals of the module and what the program leaves behind *)
Record state := mk_state {
  latest_frame : ndarray;
  latest_frame_to_process : option ndarray;
  (* files written by [cv2.imwrite], newest first; writes into the upload
     directory, created at import, are taken to succeed *)
  disk : list (string * ndarray);
  (* daemon threads started, oldest first *)
  threads : list target;
  (* printed lines, oldest first *)
  stdout : list message;
  (* messages accepted by the SMTP server or by twilio, oldest first *)
  sent : list notification
}.

(** The module's state after import (lines 40-41). *)
Definition initial_state : state :=
  {| latest_frame := np_zeros (480, 640, 3)%N;
     latest_frame_to_process := None;
     disk := [];
     threads := [];
     stdout := [];
     sent := [] |}.

(** ** A state-and-exception monad

    A raised exception keeps the state changes made before it, as in
    Python. *)
Definition M (A : Type) : Type := state -> result A * state.

Definition ret {A} (a : A) : M A := fun st => (Ok a, st).

Definition bind {A B} (c : M A) (k : A -> M B) : M B :=
  fun st =>
    match c st with
    | (Ok a, st') => k a st'
    | (Raise e, st') => (Raise e, st')
    end.

Definition raise {A} (e : exn) : M A := fun st => (Raise e, st).

(** [try: body except Exception as e: handler e] *)
Definition try_except {A} (body : M A) (handler : exn -> M A) : M A :=
  fun st =>
    match body st with
    | (Ok a, st') => (Ok a, st')
    | (Raise e, st') => handler e st'
    end.

(** The outcome of an external call. *)
Definition lift {A} (r : result A) : M A := fun st => (r, st).

Declare Scope monad_scope.
Delimit Scope monad_scope with monad.
Notation "x <- c1 ;; c2" := (bind c1 (fun x => c2))
  (at level 61, c1 at next level, right associativity) : monad_scope.
Notation "c1 ;; c2" := (bind c1 (fun _ => c2))
  (at level 61, right associativity) : monad_scope.
Local Open Scope monad_scope.

(** *** Primitive effects *)

Definition print (m : message) : M unit :=
  fun st =>
    (Ok tt, {| latest_frame := latest_frame st;
               latest_frame_to_process := latest_frame_to_process st;
               disk := disk st;
               threads := threads st;
               stdout := stdout st ++ [m];
               sent := sent st |}).

Definition set_latest_frame (frame : ndarray) : M unit :=
  fun st =>
    (Ok tt, {| latest_frame := frame;
               latest_frame_to_process := latest_frame_to_process st;
               disk := disk st;
               threads := threads st;
               stdout := stdout st;
               sent := sent st |}).

Definition get_latest_frame : M ndarray :=
  fun st => (Ok (latest_frame st), st).

Definition set_latest_frame_to_process (slot : option ndarray) : M unit :=
  fun st =>
    (Ok tt, {| latest_frame := latest_frame st;
               latest_frame_to_process := slot;
               disk := disk st;
               threads := threads st;
               stdout := stdout st;
               sent := sent st |}).

Definition get_latest_frame_to_process : M (option ndarray) :=
  fun st => (Ok (latest_frame_to_process st), st).

(** [cv2.imwrite(path, frame)] *)
Definition imwrite (path : string) (frame : ndarray) : M unit :=
  fun st =>
    (Ok tt, {| latest_frame := latest_frame st;
               latest_frame_to_process := latest_frame_to_process st;
               disk := (path, frame) :: disk st;
               threads := threads st;
               stdout := stdout st;
               sent := sent st |}).

(** [threading.Thread(target=..., daemon=True).start()]: the thread is
    started and the caller goes on; the thread's body runs when the
    scheduler picks it. *)
Definition start_thread (t : target) : M unit :=
  fun st =>
    (Ok tt, {| latest_frame := latest_frame st;
               latest_frame_to_process := latest_frame_to_process st;
               disk := disk st;
               threads := threads st ++ [t];
               stdout := stdout st;
               sent := sent st |}).

Definition deliver (n : notification) : M unit :=
  fun st =>
    (Ok tt, {| latest_frame := latest_frame st;
               latest_frame_to_process := latest_frame_to_process st;
               disk := disk st;
               threads := threads st;
               stdout := stdout st;
               sent := sent st ++ [n] |}).

(** The newest file written under [path]. *)
Fixpoint disk_lookup (d : list (string * ndarray)) (path : string) : option ndarray :=
  match d with
  | [] => None
  | (p, content) :: rest => if String.eqb p path then Some content else disk_lookup rest path
  end.

(** [open(path, 'rb').read()] *)
Definition open_rb (path : string) : M ndarray :=
  fun st =>
    match disk_lookup (disk st) path with
    | Some content => (Ok content, st)
    | None => (Raise (Exception "FileNotFoundError"), st)
    end.

(** [with frame_lock: body].  In this layer a function runs without
    interruption, so the lock only brackets its body; the interleaving of
    threads around the lock is the subject of the second layer. *)
Definition with_frame_lock {A} (body : M A) : M A := body.

(** [time.sleep(0.01)] *)
Definition sleep : M unit := ret tt.

(** *** Strings and paths *)

Definition UPLOAD_FOLDER : string := "upload".

(** [str(n)] for a Python int *)
Definition str (n : Z) : string := NilZero.string_of_int (Z.to_int n).

(** [os.path.join(a, b)] for a relative [b] and a non-empty [a] without a
    trailing separator *)
Definition path_join (a b : string) : string := (a ++ "/" ++ b)%string.

Fixpoint basename_from (acc p : string) : string :=
  match p with
  | EmptyString => acc
  | String c rest =>
      if Ascii.eqb c "/"%char then basename_from EmptyString rest
      else basename_from (acc ++ String c EmptyString)%string rest
  end.

(** [os.path.basename(p)] *)
Definition basename (p : string) : string := basename_from EmptyString p.

(** [os.path.join(UPLOAD_FOLDER, f"frame_{ts}.jpg")] (line 98) *)
Definition frame_path_of (ts : Z) : string :=
  path_join UPLOAD_FOLDER ("frame_" ++ str ts ++ ".jpg")%string.

(** A response made of a string and a status code, as Flask builds it from
    [return "OK"] or [return "Error", 500]. *)
Definition text_response (s : string) (code : Z) : response :=
  {| body := list_byte_of_string s; status := code; mimetype := "text/html" |}.

(** ** The functions of the source *)

Section Program.

Variable env : Env.

(** *** Alert functions (lines 58-92) *)

(** The body of the [try] in [send_email] (lines 60-75). *)
Definition send_email_try (image_path : string) : M unit :=
  f_read <- open_rb image_path ;;
  let msg := {| Subject := "🚨 Hands-Up Alert!";
                From_ := EMAIL_USER env;
                To := TO_EMAIL env;
                text := "Person detected with hands up! See attached image.";
                image_name := basename image_path;
                image := f_read |} in
  lift (smtp_connect env) ;;
  lift (smtp_starttls env) ;;
  lift (smtp_login env (EMAIL_USER env) (EMAIL_PASS env)) ;;
  lift (smtp_send_message env msg) ;;
  deliver (EmailNotification msg) ;;
  lift (smtp_quit env) ;;
  print EmailSent.

Definition send_email (image_path : string) : M unit :=
  try_except (send_email_try image_path) (fun e => print (EmailFailed e)).

(** The body of the [try] in [send_sms] (lines 84-90). *)
Definition send_sms_try (Client : option string -> option string -> result twilio_client) : M unit :=
  client <- lift (Client (TWILIO_SID env) (TWILIO_AUTH env)) ;;
  sid <- lift (messages_create client "🚨 Hands-Up detected!" (TWILIO_FROM env) (TWILIO_TO env)) ;;
  deliver (SmsNotification "🚨 Hands-Up detected!" (TWILIO_FROM env) (TWILIO_TO env)) ;;
  print (SmsSent sid).

Definition send_sms : M unit :=
  match TwilioClient env with
  | None => print TwilioNotInstalled
  | Some Client =>
      try_except (send_sms_try Client) (fun e => print (SmsFailed e))
  end.

(** What a started thread runs. *)
Definition run_target (t : target) : M unit :=
  match t with
  | send_email_target image_path => send_email image_path
  | send_sms_target => send_sms
  end.

(** *** Frame processing (lines 95-130) *)

(** [lm[i]] on the landmark list: an index out of range raises. *)
Definition getitem (lm : list NormalizedLandmark) (i : nat) : M NormalizedLandmark :=
  match nth_error lm i with
  | Some l => ret l
  | None => raise (Exception "IndexError")
  end.

(** Lines 116-119: the dynamic margin and the test on both sides. *)
Definition hands_up_of (lw ls rw rs : NormalizedLandmark) : bool :=
  let margin_left := (0.2 * abs (y ls - y lw))%float in
  let margin_right := (0.2 * abs (y rs - y rw))%float in
  (y lw + margin_left <? y ls)%float && (y rw + margin_right <? y rs)%float.

Definition process_frame (now : Z) (frame : ndarray) : M unit :=
  let ts := now in
  let frame_path := frame_path_of ts in
  imwrite frame_path frame ;;
  let image_rgb := cvtColor_BGR2RGB env frame in
  pose_landmarks <- lift (pose_process env image_rgb) ;;
  match pose_landmarks with
  | None =>
      print NoPoseDetected ;;
      set_latest_frame (ndarray_copy frame)
  | Some lm =>
      lw <- getitem lm LEFT_WRIST ;;
      rw <- getitem lm RIGHT_WRIST ;;
      ls <- getitem lm LEFT_SHOULDER ;;
      rs <- getitem lm RIGHT_SHOULDER ;;
      print (WristShoulder (y lw) (y ls) (y rw) (y rs)) ;;
      let hands_up := hands_up_of lw ls rw rs in
      print (HandsUp hands_up) ;;
      let frame := draw_landmarks env frame lm in
      set_latest_frame (ndarray_copy frame) ;;
      if hands_up then
        print SendingAlert ;;
        start_thread (send_email_target frame_path) ;;
        start_thread send_sms_target
      else ret tt
  end.

(** *** Worker thread (lines 133-142) *)

(** [x.copy()] where [x] may be [None]. *)
Definition copy_of (slot : option ndarray) : M ndarray :=
  match slot with
  | Some frame => ret (ndarray_copy frame)
  | None => raise (Exception "AttributeError")
  end.

(** One round of the [while True] loop; [now] is the clock the round reads
    should it process a frame. *)
Definition frame_worker_round (now : Z) : M unit :=
  slot <- get_latest_frame_to_process ;;
  match slot with
  | Some _ =>
      frame <- with_frame_lock
                 (slot <- get_latest_frame_to_process ;;
                  frame <- copy_of slot ;;
                  set_latest_frame_to_process None ;;
                  ret frame) ;;
      process_frame now frame
  | None => sleep
  end.

(** The loop, one clock reading per round.  It has no handler: a round that
    raises ends the loop, and the thread with it. *)
Fixpoint frame_worker (clock : list Z) : M unit :=
  match clock with
  | [] => ret tt
  | now :: later => frame_worker_round now ;; frame_worker later
  end.

(** *** Routes (lines 151-170) *)

Definition latest : M response :=
  frame <- get_latest_frame ;;
  encoded <- lift (imencode env ".jpg" frame) ;;
  let '(_, jpeg) := encoded in
  ret {| body := jpeg; status := 200; mimetype := "image/jpeg" |}.

Definition upload (request_data : list byte) : M response :=
  try_except
    (let file_bytes := request_data in
     frame <- lift (imdecode env file_bytes) ;;
     match frame with
     | Some frame =>
         with_frame_lock (set_latest_frame_to_process (Some (ndarray_copy frame))) ;;
         ret (text_response "OK" 200)
     | None => ret (text_response "Error" 500)
     end)
    (fun e => print (UploadFailed e) ;; ret (text_response "Error" 500)).

(** *** The Frame Slot operations, as the spec names them *)

(** [Publish(frame)]: the locked assignment of [upload] (lines 163-165). *)
Definition Publish (frame : ndarray) : M unit :=
  with_frame_lock (set_latest_frame_to_process (Some (ndarray_copy frame))).

(** [TakeIfPresent()]: the test and the locked block of [frame_worker]
    (lines 136-139). *)
Definition TakeIfPresent : M (option ndarray) :=
  slot <- get_latest_frame_to_process ;;
  match slot with
  | Some _ =>
      frame <- with_frame_lock
                 (slot <- get_latest_frame_to_process ;;
                  frame <- copy_of slot ;;
                  set_latest_frame_to_process None ;;
                  ret frame) ;;
      ret (Some frame)
  | None => ret None
  end.

End Program.

(** ** The threads of the program

    The worker thread (started at line 144), one thread per request (Flask
    runs [threaded=True]) and the daemon threads started by [process_frame]
    take turns.  A turn is one atomic piece of a thread's code; a thread
    that waits for [frame_lock] has no turn to take. *)

Inductive thread_id :=
| Worker
| Handler (n : nat)
| Alert (n : nat).

Inductive request :=
| GET_latest
| POST_upload (request_data : list byte).

(** Where the worker stands in [frame_worker]. *)
Inductive worker_pc :=
| W_test                          (* line 136: [if ... is not None] *)
| W_lock                          (* line 137: entering [with frame_lock] *)
| W_copy                          (* line 138 *)
| W_clear (frame : ndarray)       (* line 139 *)
| W_unlock (frame : ndarray)      (* leaving the [with] block *)
| W_process (frame : ndarray)     (* line 140 *)
| W_sleep                         (* line 142 *)
| W_terminated (e : exn).         (* an exception left the loop *)

(** Where a request thread stands in its route. *)
Inductive handler_pc :=
| H_latest                        (* lines 153-155 *)
| H_decode (request_data : list byte)   (* lines 160-161 *)
| H_lock (frame : ndarray)        (* line 163: entering [with frame_lock] *)
| H_store (frame : ndarray)       (* line 165 *)
| H_unlock                        (* leaving the [with] block *)
| H_return (r : response)         (* lines 166, 167, 170 *)
| H_responded (r : response).

(** What a turn does. *)
Inductive action :=
| test_slot
| acquire_lock
| copy_slot
| clear_slot
| store_slot
| release_lock
| call_process_frame
| call_sleep
| call_imdecode
| call_latest
| return_response
| call_send_email
| call_send_sms.

(** The turns that reach outside the process: [process_frame] writes the
    frame to disk, calls the estimator and starts the alert threads; the
    alert functions talk to the SMTP server and to twilio. *)
Definition external_io (a : action) : bool :=
  match a with
  | call_process_frame | call_send_email | call_send_sms => true
  | _ => false
  end.

(** The turns that only read or write the slot in memory, or give the lock
    back. *)
Definition slot_operation (a : action) : bool :=
  match a with
  | copy_slot | clear_slot | store_slot | release_lock => true
  | _ => false
  end.

Record config := mk_config {
  globals : state;
  frame_lock : option thread_id;      (* the holder, if any *)
  worker : worker_pc;
  handlers : list handler_pc;         (* request threads, by arrival *)
  finished : list nat                 (* alert threads that have run *)
}.

(** After import: the globals are fresh, the worker is at the top of its
    loop, nobody holds the lock. *)
Definition initial_config : config :=
  {| globals := initial_state;
     frame_lock := None;
     worker := W_test;
     handlers := [];
     finished := [] |}.

Fixpoint set_nth {A} (l : list A) (n : nat) (a : A) : list A :=
  match l, n with
  | [], _ => []
  | _ :: rest, O => a :: rest
  | b :: rest, S n' => b :: set_nth rest n' a
  end.

Definition with_globals (c : config) (st : state) : config :=
  {| globals := st;
     frame_lock := frame_lock c;
     worker := worker c;
     handlers := handlers c;
     finished := finished c |}.

Definition with_lock (c : config) (holder : option thread_id) : config :=
  {| globals := globals c;
     frame_lock := holder;
     worker := worker c;
     handlers := handlers c;
     finished := finished c |}.

Definition with_worker (c : config) (pc : worker_pc) : config :=
  {| globals := globals c;
     frame_lock := frame_lock c;
     worker := pc;
     handlers := handlers c;
     finished := finished c |}.

Definition with_handler (c : config) (n : nat) (pc : handler_pc) : config :=
  {| globals := globals c;
     frame_lock := frame_lock c;
     worker := worker c;
     handlers := set_nth (handlers c) n pc;
     finished := finished c |}.

Definition with_finished (c : config) (n : nat) : config :=
  {| globals := globals c;
     frame_lock := frame_lock c;
     worker := worker c;
     handlers := handlers c;
     finished := n :: finished c |}.

(** Flask's answer to an exception that leaves a route. *)
Definition internal_server_error : response :=
  text_response "Internal Server Error" 500.

Section Threads.

Variable env : Env.

(** A turn of the worker. *)
Definition step_worker (now : Z) (c : config) : option (action * config) :=
  match worker c with
  | W_test =>
      match latest_frame_to_process (globals c) with
      | Some _ => Some (test_slot, with_worker c W_lock)
      | None => Some (test_slot, with_worker c W_sleep)
      end
  | W_lock =>
      match frame_lock c with
      | None => Some (acquire_lock, with_worker (with_lock c (Some Worker)) W_copy)
      | Some _ => None
      end
  | W_copy =>
      match copy_of (latest_frame_to_process (globals c)) (globals c) with
      | (Ok frame, _) => Some (copy_slot, with_worker c (W_clear frame))
      | (Raise e, _) => Some (copy_slot, with_worker (with_lock c None) (W_terminated e))
      end
  | W_clear frame =>
      let '(_, st) := set_latest_frame_to_process None (globals c) in
      Some (clear_slot, with_worker (with_globals c st) (W_unlock frame))
  | W_unlock frame =>
      Some (release_lock, with_worker (with_lock c None) (W_process frame))
  | W_process frame =>
      match process_frame env now frame (globals c) with
      | (Ok _, st) => Some (call_process_frame, with_worker (with_globals c st) W_test)
      | (Raise e, st) => Some (call_process_frame, with_worker (with_globals c st) (W_terminated e))
      end
  | W_sleep => Some (call_sleep, with_worker c W_test)
  | W_terminated _ => None
  end.

(** A turn of the request thread [n]. *)
Definition step_handler (n : nat) (c : config) : option (action * config) :=
  match nth_error (handlers c) n with
  | None => None
  | Some H_latest =>
      match latest env (globals c) with
      | (Ok r, st) => Some (call_latest, with_handler (with_globals c st) n (H_return r))
      | (Raise _, st) =>
          Some (call_latest, with_handler (with_globals c st) n (H_return internal_server_error))
      end
  | Some (H_decode request_data) =>
      match imdecode env request_data with
      | Ok (Some frame) => Some (call_imdecode, with_handler c n (H_lock frame))
      | Ok None => Some (call_imdecode, with_handler c n (H_return (text_response "Error" 500)))
      | Raise e =>
          let '(_, st) := print (UploadFailed e) (globals c) in
          Some (call_imdecode,
                with_handler (with_globals c st) n (H_return (text_response "Error" 500)))
      end
  | Some (H_lock frame) =>
      match frame_lock c with
      | None => Some (acquire_lock, with_handler (with_lock c (Some (Handler n))) n (H_store frame))
      | Some _ => None
      end
  | Some (H_store frame) =>
      let '(_, st) := set_latest_frame_to_process (Some (ndarray_copy frame)) (globals c) in
      Some (store_slot, with_handler (with_globals c st) n H_unlock)
  | Some H_unlock =>
      Some (release_lock, with_handler (with_lock c None) n (H_return (text_response "OK" 200)))
  | Some (H_return r) => Some (return_response, with_handler c n (H_responded r))
  | Some (H_responded _) => None
  end.

(** The turn of the alert thread [n]: the [n]-th thread the program started
    runs its target, once. *)
Definition step_alert (n : nat) (c : config) : option (action * config) :=
  if existsb (Nat.eqb n) (finished c) then None
  else
    match nth_error (threads (globals c)) n with
    | None => None
    | Some t =>
        let '(_, st) := run_target env t (globals c) in
        Some (match t with
              | send_email_target _ => call_send_email
              | send_sms_target => call_send_sms
              end,
              with_finished (with_globals c st) n)
    end.

Definition step_thread (t : thread_id) (now : Z) (c : config) : option (action * config) :=
  match t with
  | Worker => step_worker now c
  | Handler n => step_handler n c
  | Alert n => step_alert n c
  end.

(** A request arrives: a new thread stands at the start of its route. *)
Definition accept (r : request) (c : config) : config :=
  {| globals := globals c;
     frame_lock := frame_lock c;
     worker := worker c;
     handlers := handlers c ++ [match r with
                                | GET_latest => H_latest
                                | POST_upload request_data => H_decode request_data
                                end];
     finished := finished c |}.

(** What happens next: a request arrives, or a thread takes a turn at the
    clock reading [now]. *)
Inductive event :=
| arrives (r : request)
| turn (t : thread_id) (now : Z).

Definition exec (c : config) (ev : event) : option config :=
  match ev with
  | arrives r => Some (accept r c)
  | turn t now =>
      match step_thread t now c with
      | Some (_, c') => Some c'
      | None => None
      end
  end.

(** What the event did, when it was a thread's turn. *)
Definition action_of (c : config) (ev : event) : list (thread_id * action) :=
  match ev with
  | arrives _ => []
  | turn t now =>
      match step_thread t now c with
      | Some (a, _) => [(t, a)]
      | None => []
      end
  end.

(** A run: the events in order, each enabled when its time comes; the run
    gives the turns taken and the configuration reached. *)
Fixpoint exec_all (c : config) (evs : list event) : option (list (thread_id * action) * config) :=
  match evs with
  | [] => Some ([], c)
  | ev :: rest =>
      match exec c ev with
      | Some c' =>
          match exec_all c' rest with
          | Some (tr, c'') => Some (action_of c ev ++ tr, c'')
          | None => None
          end
      | None => None
      end
  end.

(** The configurations the program can be in. *)
Inductive reachable : config -> Prop :=
| reachable_initial : reachable initial_config
| reachable_exec c ev c' : reachable c -> exec c ev = Some c' -> reachable c'.

End Threads.

(** ** A small world to run the program in

    One-pixel frames, a codec that reads four-byte buffers, an estimator
    that answers by the red channel of the pixel, an SMTP server and a
    twilio package that can be switched off.  The runs below use it. *)
Module Toy.

Local Open Scope string_scope.

Definition pixel (b g r : byte) : ndarray :=
  {| shape := (1, 1, 3)%N; data := [b; g; r] |}.

(** The buffer [ff b g r] holds the pixel (b, g, r); an empty buffer makes
    the decoder raise; any other buffer is not an image. *)
Definition decode (buf : list byte) : result (option ndarray) :=
  match buf with
  | [] => Raise (Exception "cv2.error")
  | [xff; b; g; r] => Ok (Some (pixel b g r))
  | _ => Ok None
  end.

Definition encode (ext : string) (a : ndarray) : result (bool * list byte) :=
  Ok (true, [xff; xd8]).

Fixpoint swap_channels (d : list byte) : list byte :=
  match d with
  | b :: g :: r :: rest => r :: g :: b :: swap_channels rest
  | _ => d
  end.

Definition bgr2rgb (a : ndarray) : ndarray :=
  {| shape := shape a; data := swap_channels (data a) |}.

(** The 33 landmarks of a pose, the four of interest at the given heights. *)
Definition pose_with (lw_y ls_y rw_y rs_y : float) : list NormalizedLandmark :=
  map (fun i =>
         {| x := 0.5%float;
            y := if Nat.eqb i LEFT_WRIST then lw_y
                 else if Nat.eqb i LEFT_SHOULDER then ls_y
                 else if Nat.eqb i RIGHT_WRIST then rw_y
                 else if Nat.eqb i RIGHT_SHOULDER then rs_y
                 else 0.5%float;
            z := 0%float;
            visibility := 1%float |})
      (seq 0 33).

Definition raised : list NormalizedLandmark := pose_with 0.10 0.30 0.10 0.30.
Definition barely_raised : list NormalizedLandmark := pose_with 0.28 0.30 0.28 0.30.
Definition one_arm : list NormalizedLandmark := pose_with 0.10 0.30 0.35 0.30.

(** Red 0: nobody in the frame; 1: both hands up; 2: one arm up; 3: both
    hands just above the shoulders; any other value makes the estimator
    raise. *)
Definition estimate (image_rgb : ndarray) : result (option (list NormalizedLandmark)) :=
  match data image_rgb with
  | x00 :: _ => Ok None
  | x01 :: _ => Ok (Some raised)
  | x02 :: _ => Ok (Some one_arm)
  | x03 :: _ => Ok (Some barely_raised)
  | _ => Raise (Exception "RuntimeError")
  end.

(** The drawer paints the frame white. *)
Definition draw (frame : ndarray) (lm : list NormalizedLandmark) : ndarray :=
  {| shape := shape frame; data := map (fun _ => xff) (data frame) |}.

Definition client : twilio_client :=
  {| messages_create := fun _ from_ to =>
       match from_, to with
       | Some _, Some _ => Ok "SM0001"
       | _, _ => Raise (Exception "TwilioRestException")
       end |}.

(** The twilio client refuses to be built without credentials. *)
Definition Client (sid auth : option string) : result twilio_client :=
  match sid, auth with
  | Some _, Some _ => Ok client
  | _, _ => Raise (Exception "TwilioException")
  end.

(** [smtp_up]: the SMTP server accepts the login; [twilio_installed]: the
    import at line 12 succeeded; [twilio_configured]: the four TWILIO_
    variables are set. *)
Definition world (smtp_up twilio_installed twilio_configured : bool) : Env :=
  {| imdecode := decode;
     imencode := encode;
     cvtColor_BGR2RGB := bgr2rgb;
     pose_process := estimate;
     draw_landmarks := draw;
     smtp_connect := Ok tt;
     smtp_starttls := Ok tt;
     smtp_login := fun _ _ =>
       if smtp_up then Ok tt else Raise (Exception "SMTPAuthenticationError");
     smtp_send_message := fun _ => Ok tt;
     smtp_quit := Ok tt;
     TwilioClient := if twilio_installed then Some Client else None;
     EMAIL_USER := Some "camera@example.org";
     EMAIL_PASS := Some "secret";
     TO_EMAIL := Some "guard@example.org";
     TWILIO_SID := if twilio_configured then Some "AC0001" else None;
     TWILIO_AUTH := if twilio_configured then Some "token" else None;
     TWILIO_FROM := if twilio_configured then Some "+10000000001" else None;
     TWILIO_TO := if twilio_configured then Some "+10000000002" else None |}.

Definition normal : Env := world true true true.

(** Globals with a one-pixel placeholder, for runs that are compared as a
    whole. *)
Definition blank : state :=
  {| latest_frame := pixel x00 x00 x00;
     latest_frame_to_process := None;
     disk := [];
     threads := [];
     stdout := [];
     sent := [] |}.

(** The normal world with another estimator. *)
Definition with_estimator
    (estimator : ndarray -> result (option (list NormalizedLandmark))) : Env :=
  {| imdecode := decode;
     imencode := encode;
     cvtColor_BGR2RGB := bgr2rgb;
     pose_process := estimator;
     draw_landmarks := draw;
     smtp_connect := Ok tt;
     smtp_starttls := Ok tt;
     smtp_login := fun _ _ => Ok tt;
     smtp_send_message := fun _ => Ok tt;
     smtp_quit := Ok tt;
     TwilioClient := Some Client;
     EMAIL_USER := Some "camera@example.org";
     EMAIL_PASS := Some "secret";
     TO_EMAIL := Some "guard@example.org";
     TWILIO_SID := Some "AC0001";
     TWILIO_AUTH := Some "token";
     TWILIO_FROM := Some "+10000000001";
     TWILIO_TO := Some "+10000000002" |}.

(** An estimator that never finds anybody and never raises. *)
Definition quiet : Env := with_estimator (fun _ => Ok None).

(** A twilio service that takes a message whatever sender and recipient
    it is given. *)
Definition lenient_client : twilio_client :=
  {| messages_create := fun _ _ _ => Ok "SM0002" |}.

(** The program's twilio variables are not set: the credentials are
    missing, and so are the numbers unless [numbers_set].  The twilio
    client is built all the same (the package has its account from
    elsewhere). *)
Definition unconfigured (numbers_set : bool) : Env :=
  {| imdecode := decode;
     imencode := encode;
     cvtColor_BGR2RGB := bgr2rgb;
     pose_process := estimate;
     draw_landmarks := draw;
     smtp_connect := Ok tt;
     smtp_starttls := Ok tt;
     smtp_login := fun _ _ => Ok tt;
     smtp_send_message := fun _ => Ok tt;
     smtp_quit := Ok tt;
     TwilioClient :=
       Some (fun _ _ => Ok (if numbers_set then client else lenient_client));
     EMAIL_USER := Some "camera@example.org";
     EMAIL_PASS := Some "secret";
     TO_EMAIL := Some "guard@example.org";
     TWILIO_SID := None;
     TWILIO_AUTH := None;
     TWILIO_FROM := if numbers_set then Some "+10000000001" else None;
     TWILIO_TO := if numbers_set then Some "+10000000002" else None |}.

(** An estimator that reports a pose of sixteen landmarks only. *)
Definition truncated : Env :=
  with_estimator (fun _ => Ok (Some (firstn 16 raised))).

End Toy.

(** ** The spec's words *)

(** A side is raised iff [wrist.y + margin < shoulder.y], where
    [margin = 0.2 * |shoulder.y - wrist.y|]. *)
Definition side_raised (wrist shoulder : NormalizedLandmark) : bool :=
  (y wrist + 0.2 * abs (y shoulder - y wrist) <? y shoulder)%float.

(** *** Worker cycles *)

(** The worker's successive calls of [process_frame], each with the clock
    it reads and the frame it took from the slot. *)
Fixpoint process_frames (env : Env) (jobs : list (Z * ndarray)) : M unit :=
  match jobs with
  | [] => ret tt
  | (now, frame) :: rest =>
      process_frame env now frame ;; process_frames env rest
  end.

(** The outcome of the heuristic on a frame: [None] when the estimator
    finds no pose (or gives no usable answer), [Some hands_up] when it
    finds the four landmarks. *)
Definition verdict (env : Env) (frame : ndarray) : option bool :=
  match pose_process env (cvtColor_BGR2RGB env frame) with
  | Ok (Some lm) =>
      match nth_error lm LEFT_WRIST, nth_error lm LEFT_SHOULDER,
            nth_error lm RIGHT_WRIST, nth_error lm RIGHT_SHOULDER with
      | Some lw, Some ls, Some rw, Some rs => Some (hands_up_of lw ls rw rs)
      | _, _, _, _ => None
      end
  | _ => None
  end.

(** The estimator answers on the frame: no pose, or a pose that holds the
    four landmarks. *)
Definition estimator_answers (env : Env) (frame : ndarray) : bool :=
  match pose_process env (cvtColor_BGR2RGB env frame) with
  | Ok None => true
  | Ok (Some lm) =>
      match nth_error lm LEFT_WRIST, nth_error lm LEFT_SHOULDER,
            nth_error lm RIGHT_WRIST, nth_error lm RIGHT_SHOULDER with
      | Some _, Some _, Some _, Some _ => true
      | _, _, _, _ => false
      end
  | Raise _ => false
  end.

(** One alert dispatch: an email thread with the cycle's file and an SMS
    thread. *)
Definition alert_dispatch (now : Z) : list target :=
  [send_email_target (frame_path_of now); send_sms_target].

(** The threads a cycle is to start: a dispatch when the heuristic says
    true, nothing otherwise. *)
Definition alerts_due (env : Env) (job : Z * ndarray) : list target :=
  match verdict env (snd job) with
  | Some true => alert_dispatch (fst job)
  | _ => []
  end.

(** *** Alert outcomes *)

(** The state after an alert function printed [m] and handed [delivered]
    to its transport; nothing else changes. *)
Definition logged (st : state) (m : message) (delivered : list notification) : state :=
  {| latest_frame := latest_frame st;
     latest_frame_to_process := latest_frame_to_process st;
     disk := disk st;
     threads := threads st;
     stdout := stdout st ++ [m];
     sent := sent st ++ delivered |}.

(** *** The lock *)

(** The worker is inside its [with frame_lock] block. *)
Definition worker_in_block (pc : worker_pc) : bool :=
  match pc with
  | W_copy | W_clear _ | W_unlock _ => true
  | _ => false
  end.

(** A request thread is inside its [with frame_lock] block. *)
Definition handler_in_block (pc : handler_pc) : bool :=
  match pc with
  | H_store _ | H_unlock => true
  | _ => false
  end.

(** What holds of the lock, the threads and the slot in every
    configuration the program reaches: a thread holds the lock exactly
    when it stands inside its [with] block; and the slot is full while the
    worker is on its way to copy it, and still holds the copied frame when
    the worker clears it. *)
Record lock_discipline (c : config) : Prop := mk_lock_discipline {
  worker_block_holds :
    worker_in_block (worker c) = true -> frame_lock c = Some Worker;
  worker_holds_block :
    frame_lock c = Some Worker -> worker_in_block (worker c) = true;
  handler_block_holds :
    forall n pc,
      nth_error (handlers c) n = Some pc ->
      handler_in_block pc = true -> frame_lock c = Some (Handler n);
  handler_holds_block :
    forall n,
      frame_lock c = Some (Handler n) ->
      exists pc, nth_error (handlers c) n = Some pc /\ handler_in_block pc = true;
  alert_never_holds :
    forall n, frame_lock c <> Some (Alert n);
  slot_full_before_copy :
    worker c = W_lock \/ worker c = W_copy ->
    latest_frame_to_process (globals c) <> None;
  slot_kept_until_clear :
    forall frame,
      worker c = W_clear frame ->
      latest_frame_to_process (globals c) = Some frame
}.

(** *** The Frame Slot *)

(** Publish calls one after the other, no take in between. *)
Fixpoint publish_all (frames : list ndarray) : M unit :=
  match frames with
  | [] => ret tt
  | frame :: rest => Publish frame ;; publish_all rest
  end.

(** The state with the slot set to [slot]. *)
Definition with_slot (st : state) (slot : option ndarray) : state :=
  {| latest_frame := latest_frame st;
     latest_frame_to_process := slot;
     disk := disk st;
     threads := threads st;
     stdout := stdout st;
     sent := sent st |}.

(** *** Threads and blocks *)

(** The worker thread has ended. *)
Definition ended (pc : worker_pc) : bool :=
  match pc with
  | W_terminated _ => true
  | _ => false
  end.

(** The thread stands inside its [with frame_lock] block. *)
Definition in_block (c : config) (t : thread_id) : bool :=
  match t with
  | Worker => worker_in_block (worker c)
  | Handler n =>
      match nth_error (handlers c) n with
      | Some pc => handler_in_block pc
      | None => false
      end
  | Alert _ => false
  end.

(** *** Between the two thread starts

    [process_frame] starts the email thread and the SMS thread by two
    statements (lines 129 and 130); the email thread may run before the
    SMS thread is started.  The configurations below add what the worker
    has still to start; a turn of the worker in [process_frame] stops
    after the first start, and its next turn does the second. *)

Definition with_threads (st : state) (started : list target) : state :=
  {| latest_frame := latest_frame st;
     latest_frame_to_process := latest_frame_to_process st;
     disk := disk st;
     threads := started;
     stdout := stdout st;
     sent := sent st |}.

Record staged := mk_staged {
  reached : config;
  starting : list target      (* line 130 is still to come *)
}.

Definition initial_staged : staged :=
  {| reached := initial_config; starting := [] |}.

(** [c'] is the configuration after the whole of [process_frame], called
    with the globals [before]: of the threads it started, all but the
    first are held back. *)
Definition hold_back (before : state) (c' : config) : staged :=
  match skipn (List.length (threads before)) (threads (globals c')) with
  | first :: rest =>
      {| reached := with_globals c' (with_threads (globals c') (threads before ++ [first]));
         starting := rest |}
  | [] => {| reached := c'; starting := [] |}
  end.

Definition staged_step (env : Env) (t : thread_id) (now : Z) (s : staged)
  : option (action * staged) :=
  match t, starting s with
  | Worker, next :: rest =>
      let '(_, st) := start_thread next (globals (reached s)) in
      Some (call_process_frame,
            {| reached := with_globals (reached s) st; starting := rest |})
  | Worker, [] =>
      match step_worker env now (reached s) with
      | Some (call_process_frame, c') =>
          Some (call_process_frame, hold_back (globals (reached s)) c')
      | Some (a, c') => Some (a, {| reached := c'; starting := [] |})
      | None => None
      end
  | _, _ =>
      match step_thread env t now (reached s) with
      | Some (a, c') => Some (a, {| reached := c'; starting := starting s |})
      | None => None
      end
  end.

Definition staged_exec (env : Env) (s : staged) (ev : event) : option staged :=
  match ev with
  | arrives r => Some {| reached := accept r (reached s); starting := starting s |}
  | turn t now =>
      match staged_step env t now s with
      | Some (_, s') => Some s'
      | None => None
      end
  end.

Fixpoint staged_exec_all (env : Env) (s : staged) (evs : list event) : option staged :=
  match evs with
  | [] => Some s
  | ev :: rest =>
      match staged_exec env s ev with
      | Some s' => staged_exec_all env s' rest
      | None => None
      end
  end.

Inductive staged_reachable (env : Env) : staged -> Prop :=
| staged_reachable_initial : staged_reachable env initial_staged
| staged_reachable_exec s ev s' :
    staged_reachable env s -> staged_exec env s ev = Some s' -> staged_reachable env s'.

(** What holds of the alert threads at every point: the threads started,
    with the one still to be started, are whole dispatches (an email
    thread followed by an SMS thread); a thread that has run was started
    and has run once; and no more messages have left than threads have
    run. *)
Record dispatch_accounting (s : staged) : Prop := mk_dispatch_accounting {
  threads_in_dispatches :
    exists tss,
      threads (globals (reached s)) ++ starting s = flat_map alert_dispatch tss;
  one_start_pending : List.length (starting s) <= 1;
  finished_once : NoDup (finished (reached s));
  finished_started :
    forall n,
      In n (finished (reached s)) ->
      n < List.length (threads (globals (reached s)));
  sent_by_finished :
    List.length (sent (globals (reached s))) <= List.length (finished (reached s))
}.

(** *** The alert email *)

(** The message [send_email] builds for the file [image_path] holding
    [content] (lines 60-68). *)
Definition alert_email (env : Env) (image_path : string) (content : ndarray) : email :=
  {| Subject := "🚨 Hands-Up Alert!";
     From_ := EMAIL_USER env;
     To := TO_EMAIL env;
     text := "Person detected with hands up! See attached image.";
     image_name := basename image_path;
     image := content |}.

(** The number of landmarks of a mediapipe pose. *)
Definition POSE_LANDMARKS : nat := 33.

(** The estimator behaves on the frame as mediapipe's does without a
    fault: it reports no pose, or a pose of all 33 landmarks. *)
Definition estimator_delivers (env : Env) (frame : ndarray) : bool :=
  match pose_process env (cvtColor_BGR2RGB env frame) with
  | Ok None => true
  | Ok (Some lm) => Nat.eqb (List.length lm) POSE_LANDMARKS
  | Raise _ => false
  end.

(** The frame the viewer is shown after a cycle on [frame]: the frame with
    the skeleton when a pose is found, the frame itself otherwise. *)
Definition shown_frame (env : Env) (frame : ndarray) : ndarray :=
  match pose_process env (cvtColor_BGR2RGB env frame) with
  | Ok (Some lm) => draw_landmarks env frame lm
  | _ => frame
  end.


(** * Properties *)

(** ** Running the monad *)

Ltac unfold_monad :=
  unfold bind, ret, raise, lift, try_except, with_frame_lock, sleep, print,
    set_latest_frame, get_latest_frame, set_latest_frame_to_process,
    get_latest_frame_to_process, imwrite, start_thread, deliver, getitem,
    copy_of, ndarray_copy in *.

Ltac run := cbn -[nth_error frame_path_of hands_up_of np_zeros] in *.

Lemma bind_ok {A B} (c : M A) (k : A -> M B) st a st' :
  c st = (Ok a, st') -> bind c k st = k a st'.
Proof. intros H. unfold bind. rewrite H. reflexivity. Qed.

Lemma bind_raise {A B} (c : M A) (k : A -> M B) st e st' :
  c st = (Raise e, st') -> bind c k st = (Raise e, st').
Proof. intros H. unfold bind. rewrite H. reflexivity. Qed.

(** ** The hands-up heuristic *)

Lemma hands_up_of_sides lw ls rw rs :
  hands_up_of lw ls rw rs = side_raised lw ls && side_raised rw rs.
Proof. reflexivity. Qed.

(** What [process_frame] does when the estimator finds a pose that holds
    the four landmarks. *)
Lemma process_frame_found env now frame st lm lw ls rw rs :
  pose_process env (cvtColor_BGR2RGB env frame) = Ok (Some lm) ->
  nth_error lm LEFT_WRIST = Some lw ->
  nth_error lm LEFT_SHOULDER = Some ls ->
  nth_error lm RIGHT_WRIST = Some rw ->
  nth_error lm RIGHT_SHOULDER = Some rs ->
  process_frame env now frame st =
    (Ok tt,
     {| latest_frame := draw_landmarks env frame lm;
        latest_frame_to_process := latest_frame_to_process st;
        disk := (frame_path_of now, frame) :: disk st;
        threads := threads st ++
                   (if hands_up_of lw ls rw rs
                    then [send_email_target (frame_path_of now); send_sms_target]
                    else []);
        stdout := stdout st ++
                  WristShoulder (y lw) (y ls) (y rw) (y rs)
                  :: HandsUp (hands_up_of lw ls rw rs)
                  :: (if hands_up_of lw ls rw rs then [SendingAlert] else []);
        sent := sent st |}).
Proof.
  intros Hpose Hlw Hls Hrw Hrs.
  unfold process_frame. unfold_monad. run.
  rewrite Hpose. run.
  rewrite Hlw. run. rewrite Hrw. run. rewrite Hls. run. rewrite Hrs. run.
  destruct (hands_up_of lw ls rw rs); run.
  - rewrite <- !app_assoc. reflexivity.
  - rewrite <- !app_assoc, app_nil_r. reflexivity.
Qed.

(** C1.  For a pose that holds the four landmarks, the value the code
    computes and prints as [Hands-Up] is true exactly when both sides are
    raised in the sense of [side_raised]; shoulders at 0.30 with wrists at
    0.10 give true, shoulders at 0.30 with wrists at 0.28 give true, and a
    raised left side with the right wrist at 0.35 under the right shoulder
    at 0.30 gives false. *)
Theorem hands_up_iff_both_sides_raised :
  forall env now frame st lm lw ls rw rs,
    pose_process env (cvtColor_BGR2RGB env frame) = Ok (Some lm) ->
    nth_error lm LEFT_WRIST = Some lw ->
    nth_error lm LEFT_SHOULDER = Some ls ->
    nth_error lm RIGHT_WRIST = Some rw ->
    nth_error lm RIGHT_SHOULDER = Some rs ->
    (exists st',
        process_frame env now frame st = (Ok tt, st') /\
        stdout st' = stdout st ++
                     WristShoulder (y lw) (y ls) (y rw) (y rs)
                     :: HandsUp (hands_up_of lw ls rw rs)
                     :: (if hands_up_of lw ls rw rs then [SendingAlert] else [])) /\
    (hands_up_of lw ls rw rs = true <->
     side_raised lw ls = true /\ side_raised rw rs = true) /\
    (y ls = 0.30%float -> y rs = 0.30%float ->
     y lw = 0.10%float -> y rw = 0.10%float ->
     hands_up_of lw ls rw rs = true) /\
    (y ls = 0.30%float -> y rs = 0.30%float ->
     y lw = 0.28%float -> y rw = 0.28%float ->
     hands_up_of lw ls rw rs = true) /\
    (side_raised lw ls = true ->
     y rs = 0.30%float -> y rw = 0.35%float ->
     hands_up_of lw ls rw rs = false).
Proof.
  intros env now frame st lm lw ls rw rs Hpose Hlw Hls Hrw Hrs.
  split; [| split; [| split; [| split]]].
  - eexists. split.
    + apply (process_frame_found env now frame st lm lw ls rw rs); assumption.
    + reflexivity.
  - rewrite hands_up_of_sides. apply andb_true_iff.
  - intros H1 H2 H3 H4. unfold hands_up_of.
    rewrite H1, H2, H3, H4. vm_compute. reflexivity.
  - intros H1 H2 H3 H4. unfold hands_up_of.
    rewrite H1, H2, H3, H4. vm_compute. reflexivity.
  - intros Hleft H1 H2. rewrite hands_up_of_sides, Hleft.
    unfold side_raised. rewrite H1, H2. vm_compute. reflexivity.
Qed.

(** mediapipe keeps a landmark's coordinates as 32-bit floats; read in
    Python they are the doubles below.  The three cases come out the
    same. *)
Example hands_up_at_single_precision :
  let at_y (v : float) := mk_landmark 0.5 v 0 1 in
  let y_010 := 0.100000001490116119384765625%float in
  let y_028 := 0.2800000011920928955078125%float in
  let y_030 := 0.300000011920928955078125%float in
  let y_035 := 0.3499999940395355224609375%float in
  hands_up_of (at_y y_010) (at_y y_030) (at_y y_010) (at_y y_030) = true /\
  hands_up_of (at_y y_028) (at_y y_030) (at_y y_028) (at_y y_030) = true /\
  hands_up_of (at_y y_010) (at_y y_030) (at_y y_035) (at_y y_030) = false.
Proof. repeat split; vm_compute; reflexivity. Qed.

(** In the toy world: the frame with both hands just above the shoulders
    raises the alert, the frame with one arm up does not. *)
Example verdicts_in_the_toy_world :
  verdict Toy.normal (Toy.pixel x00 x00 x03) = Some true /\
  verdict Toy.normal (Toy.pixel x00 x00 x02) = Some false /\
  verdict Toy.normal (Toy.pixel x00 x00 x00) = None /\
  threads (snd (process_frame Toy.normal 5 (Toy.pixel x00 x00 x03) Toy.blank)) =
    [send_email_target "upload/frame_5.jpg"; send_sms_target].
Proof. repeat split; vm_compute; reflexivity. Qed.

Lemma hands_up_iff_both_sides_raised_witness :
  (exists st',
      process_frame Toy.normal 5 (Toy.pixel x00 x00 x01) Toy.blank = (Ok tt, st') /\
      stdout st' = stdout Toy.blank ++
                   [WristShoulder 0.10 0.30 0.10 0.30; HandsUp true; SendingAlert]) /\
  hands_up_of (mk_landmark 0.5 0.10 0 1) (mk_landmark 0.5 0.30 0 1)
              (mk_landmark 0.5 0.10 0 1) (mk_landmark 0.5 0.30 0 1) = true.
Proof.
  pose proof (hands_up_iff_both_sides_raised
                Toy.normal 5 (Toy.pixel x00 x00 x01) Toy.blank Toy.raised
                (mk_landmark 0.5 0.10 0 1) (mk_landmark 0.5 0.30 0 1)
                (mk_landmark 0.5 0.10 0 1) (mk_landmark 0.5 0.30 0 1)
                eq_refl eq_refl eq_refl eq_refl eq_refl) as [Hrun [_ [Hup _]]].
  split.
  - exact Hrun.
  - apply Hup; reflexivity.
Defined.

(** ** A cycle without a pose *)

(** C4.  When the estimator reports no pose, the worker's call of
    [process_frame] stores the raw frame (no [draw_landmarks]) as
    [latest_frame], prints only the no-pose line (no wrist and shoulder
    heights, no Hands-Up verdict), starts no thread and sends nothing; the
    worker is back at the top of its loop. *)
Theorem no_pose_stores_raw_frame_without_alert :
  forall env now frame c,
    worker c = W_process frame ->
    pose_process env (cvtColor_BGR2RGB env frame) = Ok None ->
    let st := globals c in
    let st' := {| latest_frame := frame;
                  latest_frame_to_process := latest_frame_to_process st;
                  disk := (frame_path_of now, frame) :: disk st;
                  threads := threads st;
                  stdout := stdout st ++ [NoPoseDetected];
                  sent := sent st |} in
    process_frame env now frame st = (Ok tt, st') /\
    step_worker env now c =
      Some (call_process_frame, with_worker (with_globals c st') W_test).
Proof.
  intros env now frame c Hpc Hpose st st'.
  assert (Hrun : process_frame env now frame st = (Ok tt, st')).
  { unfold process_frame. unfold_monad. run. rewrite Hpose. reflexivity. }
  split; [exact Hrun |].
  unfold step_worker. rewrite Hpc. fold st. rewrite Hrun. reflexivity.
Qed.

Lemma no_pose_stores_raw_frame_without_alert_witness :
  process_frame Toy.normal 5 (Toy.pixel x09 x00 x00) Toy.blank =
    (Ok tt,
     {| latest_frame := Toy.pixel x09 x00 x00;
        latest_frame_to_process := None;
        disk := [(frame_path_of 5, Toy.pixel x09 x00 x00)];
        threads := [];
        stdout := [NoPoseDetected];
        sent := [] |}).
Proof.
  exact (proj1 (no_pose_stores_raw_frame_without_alert
                  Toy.normal 5 (Toy.pixel x09 x00 x00)
                  {| globals := Toy.blank; frame_lock := None;
                     worker := W_process (Toy.pixel x09 x00 x00);
                     handlers := []; finished := [] |}
                  eq_refl eq_refl)).
Defined.

(** ** A cycle in which the estimator raises *)

(** The claim C3 as the spec states it fails: in the toy world the frame
    with red channel 7 makes the estimator raise.  The upload is accepted,
    the worker takes the frame and calls [process_frame]; the exception
    ends the worker thread, [latest_frame] still holds the placeholder
    (a no-pose cycle would have stored the frame), and the next upload,
    though answered with OK, stays in the slot: the worker has no turn
    left. *)
Lemma estimator_fault_ends_worker :
  let faulty := [xff; x00; x00; x07] in
  let next := [xff; x00; x00; x00] in
  exists tr c,
    exec_all Toy.normal initial_config
      [arrives (POST_upload faulty);
       turn (Handler 0) 1; turn (Handler 0) 1; turn (Handler 0) 1;
       turn (Handler 0) 1; turn (Handler 0) 1;
       turn Worker 2; turn Worker 2; turn Worker 2; turn Worker 2;
       turn Worker 2; turn Worker 2;
       arrives (POST_upload next);
       turn (Handler 1) 3; turn (Handler 1) 3; turn (Handler 1) 3;
       turn (Handler 1) 3; turn (Handler 1) 3] = Some (tr, c) /\
    worker c = W_terminated (Exception "RuntimeError") /\
    latest_frame (globals c) = np_zeros (480, 640, 3)%N /\
    stdout (globals c) = [] /\
    nth_error (handlers c) 1 = Some (H_responded (text_response "OK" 200)) /\
    latest_frame_to_process (globals c) = Some (Toy.pixel x00 x00 x00) /\
    (forall now, exec Toy.normal c (turn Worker now) = None).
Proof.
  eexists. eexists. split; [lazy -[np_zeros]; reflexivity |].
  repeat split; intros; lazy -[np_zeros]; reflexivity.
Qed.

(** C3, amended.  When the estimator raises during the worker's call of
    [process_frame], nothing catches the exception: [process_frame] ends
    with it after having written the frame to disk, leaving
    [latest_frame], the slot, the started threads and the printed lines
    as they were; the worker thread ends ([W_terminated]) and takes no
    further turn, so the frame is not retried; and the loop of
    [frame_worker] ends with the exception whatever clock readings
    remain. *)
Theorem estimator_fault_terminates_worker :
  forall env now frame c e,
    worker c = W_process frame ->
    pose_process env (cvtColor_BGR2RGB env frame) = Raise e ->
    let st := globals c in
    let st' := {| latest_frame := latest_frame st;
                  latest_frame_to_process := latest_frame_to_process st;
                  disk := (frame_path_of now, frame) :: disk st;
                  threads := threads st;
                  stdout := stdout st;
                  sent := sent st |} in
    process_frame env now frame st = (Raise e, st') /\
    step_worker env now c =
      Some (call_process_frame, with_worker (with_globals c st') (W_terminated e)) /\
    (forall now' c', worker c' = W_terminated e -> step_worker env now' c' = None) /\
    (forall later st0,
        latest_frame_to_process st0 = Some frame ->
        frame_worker env (now :: later) st0 =
          (Raise e,
           {| latest_frame := latest_frame st0;
              latest_frame_to_process := None;
              disk := (frame_path_of now, frame) :: disk st0;
              threads := threads st0;
              stdout := stdout st0;
              sent := sent st0 |})).
Proof.
  intros env now frame c e Hpc Hpose st st'.
  assert (Hrun : forall s,
             process_frame env now frame s =
               (Raise e,
                {| latest_frame := latest_frame s;
                   latest_frame_to_process := latest_frame_to_process s;
                   disk := (frame_path_of now, frame) :: disk s;
                   threads := threads s;
                   stdout := stdout s;
                   sent := sent s |})).
  { intros s. unfold process_frame. unfold_monad. run. rewrite Hpose. reflexivity. }
  split; [apply Hrun |].
  split.
  { unfold step_worker. rewrite Hpc. fold st. rewrite Hrun. reflexivity. }
  split.
  { intros now' c' Hdead. unfold step_worker. rewrite Hdead. reflexivity. }
  intros later st0 Hslot.
  cbn [frame_worker]. unfold frame_worker_round.
  apply bind_raise.
  unfold bind at 1. unfold get_latest_frame_to_process at 1. rewrite Hslot.
  unfold with_frame_lock, get_latest_frame_to_process, copy_of,
    set_latest_frame_to_process, ndarray_copy, bind, ret.
  rewrite Hslot. rewrite Hrun. reflexivity.
Qed.

Lemma estimator_fault_terminates_worker_witness :
  process_frame Toy.normal 5 (Toy.pixel x00 x00 x07) Toy.blank =
    (Raise (Exception "RuntimeError"),
     {| latest_frame := latest_frame Toy.blank;
        latest_frame_to_process := None;
        disk := [(frame_path_of 5, Toy.pixel x00 x00 x07)];
        threads := [];
        stdout := [];
        sent := [] |}).
Proof.
  exact (proj1 (estimator_fault_terminates_worker
                  Toy.normal 5 (Toy.pixel x00 x00 x07)
                  {| globals := Toy.blank; frame_lock := None;
                     worker := W_process (Toy.pixel x00 x00 x07);
                     handlers := []; finished := [] |}
                  (Exception "RuntimeError") eq_refl eq_refl)).
Defined.

(** ** Frames on disk *)

(** Whatever the estimator answers, [process_frame] writes the frame,
    once, before anything else. *)
Lemma process_frame_writes_frame env now frame st :
  exists r st',
    process_frame env now frame st = (r, st') /\
    disk st' = (frame_path_of now, frame) :: disk st.
Proof.
  unfold process_frame. unfold_monad. run.
  destruct (pose_process env (cvtColor_BGR2RGB env frame)) as [[lm |] | e]; run;
    [| eexists; eexists; split; reflexivity ..].
  destruct (nth_error lm LEFT_WRIST) as [lw |]; run;
    [| eexists; eexists; split; reflexivity].
  destruct (nth_error lm RIGHT_WRIST) as [rw |]; run;
    [| eexists; eexists; split; reflexivity].
  destruct (nth_error lm LEFT_SHOULDER) as [ls |]; run;
    [| eexists; eexists; split; reflexivity].
  destruct (nth_error lm RIGHT_SHOULDER) as [rs |]; run;
    [| eexists; eexists; split; reflexivity].
  destruct (hands_up_of lw ls rw rs); run; eexists; eexists; split; reflexivity.
Qed.

(** [upload] writes no file. *)
Lemma upload_keeps_disk env request_data st :
  disk (snd (upload env request_data st)) = disk st.
Proof.
  unfold upload. unfold_monad. run.
  destruct (imdecode env request_data) as [[frame |] | e]; reflexivity.
Qed.

(** The claim C5 as the spec states it fails: two uploads are decoded and
    answered with OK before the worker looks at the slot; the worker then
    processes the second frame only.  The first frame is in no file, and
    nothing of it is left in the program: the slot is empty and no thread
    holds it. *)
Lemma replaced_frame_is_never_written :
  let first := [xff; x01; x02; x00] in
  let second := [xff; x03; x04; x00] in
  imdecode Toy.normal first = Ok (Some (Toy.pixel x01 x02 x00)) /\
  exists tr c,
    exec_all Toy.normal initial_config
      [arrives (POST_upload first);
       turn (Handler 0) 1; turn (Handler 0) 1; turn (Handler 0) 1;
       turn (Handler 0) 1; turn (Handler 0) 1;
       arrives (POST_upload second);
       turn (Handler 1) 1; turn (Handler 1) 1; turn (Handler 1) 1;
       turn (Handler 1) 1; turn (Handler 1) 1;
       turn Worker 2; turn Worker 2; turn Worker 2; turn Worker 2;
       turn Worker 2; turn Worker 2] = Some (tr, c) /\
    handlers c = [H_responded (text_response "OK" 200);
                  H_responded (text_response "OK" 200)] /\
    disk (globals c) = [(frame_path_of 2, Toy.pixel x03 x04 x00)] /\
    latest_frame_to_process (globals c) = None /\
    worker c = W_test /\
    frame_lock c = None.
Proof.
  split; [reflexivity |].
  eexists. eexists. split; [lazy -[np_zeros]; reflexivity |].
  repeat split; lazy -[np_zeros]; reflexivity.
Qed.

(** C5, amended.  Every frame the worker processes is written to the
    upload directory under [upload/frame_<ts>.jpg], [ts] being the clock
    reading in whole seconds at the start of [process_frame]; this happens
    before the estimator is called and whatever it answers (no pose, a
    pose with or without raised hands, an exception).  The file holds the
    raw frame.  [upload] itself writes nothing. *)
Theorem processed_frame_is_written :
  forall env now frame st,
    (exists r st',
        process_frame env now frame st = (r, st') /\
        disk st' = (frame_path_of now, frame) :: disk st /\
        disk_lookup (disk st') (frame_path_of now) = Some frame) /\
    (forall request_data,
        disk (snd (upload env request_data st)) = disk st).
Proof.
  intros env now frame st. split.
  - destruct (process_frame_writes_frame env now frame st) as [r [st' [Hrun Hdisk]]].
    exists r, st'. split; [exact Hrun |]. split; [exact Hdisk |].
    rewrite Hdisk. cbn [disk_lookup]. rewrite String.eqb_refl. reflexivity.
  - intros request_data. apply upload_keeps_disk.
Qed.

(** ** An upload that does not decode *)

(** C6.  When [cv2.imdecode] gives [None] or raises, [upload] answers
    with status 500 and leaves the slot, [latest_frame], the disk, the
    threads and the sent messages as they were. *)
Theorem bad_upload_leaves_pipeline_untouched :
  forall env request_data st,
    (imdecode env request_data = Ok None \/
     exists e, imdecode env request_data = Raise e) ->
    exists st',
      upload env request_data st = (Ok (text_response "Error" 500), st') /\
      status (text_response "Error" 500) = 500%Z /\
      latest_frame_to_process st' = latest_frame_to_process st /\
      latest_frame st' = latest_frame st /\
      disk st' = disk st /\
      threads st' = threads st /\
      sent st' = sent st.
Proof.
  intros env request_data st [Hnone | [e Hraise]];
    unfold upload; unfold_monad; run.
  - rewrite Hnone. exists st. repeat split; reflexivity.
  - rewrite Hraise. eexists. split; [reflexivity |]. repeat split; reflexivity.
Qed.

Lemma bad_upload_leaves_pipeline_untouched_witness :
  exists st',
    upload Toy.normal [] initial_state = (Ok (text_response "Error" 500), st') /\
    status (text_response "Error" 500) = 500%Z /\
    latest_frame_to_process st' = latest_frame_to_process initial_state /\
    latest_frame st' = latest_frame initial_state /\
    disk st' = disk initial_state /\
    threads st' = threads initial_state /\
    sent st' = sent initial_state.
Proof.
  apply (bad_upload_leaves_pipeline_untouched Toy.normal [] initial_state).
  right. exists (Exception "cv2.error"). reflexivity.
Defined.

(** ** Alert dispatch *)

Lemma process_frame_alerts env now frame st :
  estimator_answers env frame = true ->
  exists st',
    process_frame env now frame st = (Ok tt, st') /\
    threads st' = threads st ++ alerts_due env (now, frame) /\
    sent st' = sent st.
Proof.
  unfold estimator_answers, alerts_due, verdict. cbn [fst snd].
  destruct (pose_process env (cvtColor_BGR2RGB env frame)) as [[lm |] | e] eqn:Hpose;
    [| | discriminate].
  - destruct (nth_error lm LEFT_WRIST) as [lw |] eqn:Hlw; [| discriminate].
    destruct (nth_error lm LEFT_SHOULDER) as [ls |] eqn:Hls; [| discriminate].
    destruct (nth_error lm RIGHT_WRIST) as [rw |] eqn:Hrw; [| discriminate].
    destruct (nth_error lm RIGHT_SHOULDER) as [rs |] eqn:Hrs; [| discriminate].
    intros _. eexists. split.
    + apply (process_frame_found env now frame st lm lw ls rw rs); assumption.
    + cbn [threads sent]. split; [| reflexivity].
      destruct (hands_up_of lw ls rw rs); reflexivity.
  - intros _. eexists. split.
    + unfold process_frame. unfold_monad. run. rewrite Hpose. reflexivity.
    + cbn [threads sent]. rewrite app_nil_r. split; reflexivity.
Qed.

Lemma process_frames_alerts env jobs :
  forall st,
    forallb (fun job => estimator_answers env (snd job)) jobs = true ->
    exists st',
      process_frames env jobs st = (Ok tt, st') /\
      threads st' = threads st ++ flat_map (alerts_due env) jobs /\
      sent st' = sent st.
Proof.
  induction jobs as [| [now frame] rest IH]; intros st Hall.
  - exists st. cbn. rewrite app_nil_r. repeat split; reflexivity.
  - cbn [forallb snd] in Hall. apply andb_true_iff in Hall as [Hjob Hrest].
    destruct (process_frame_alerts env now frame st Hjob) as [st1 [Hrun [Hthreads Hsent]]].
    destruct (IH st1 Hrest) as [st2 [Hruns [Hthreads2 Hsent2]]].
    exists st2. split.
    + cbn [process_frames]. rewrite (bind_ok _ _ _ _ _ Hrun). exact Hruns.
    + split.
      * rewrite Hthreads2, Hthreads. cbn [flat_map]. rewrite app_assoc. reflexivity.
      * rewrite Hsent2. exact Hsent.
Qed.

(** C7.  Over any sequence of worker cycles on which the estimator
    answers, whatever threads were started before: each cycle whose
    verdict is true starts an email thread (with the cycle's own file) and
    an SMS thread, each cycle whose verdict is false or that finds no pose
    starts none, and the threads of the cycles add up one after the other
    (nothing is merged, skipped or held back).  The calls return without
    anything sent: the started threads have not run.  The worker, back at
    the top of its loop, always has a turn, whatever alert threads are
    unfinished. *)
Theorem every_hands_up_cycle_dispatches_alert :
  forall env jobs st,
    forallb (fun job => estimator_answers env (snd job)) jobs = true ->
    (exists st',
        process_frames env jobs st = (Ok tt, st') /\
        threads st' = threads st ++ flat_map (alerts_due env) jobs /\
        sent st' = sent st) /\
    (forall job,
        (verdict env (snd job) = Some true ->
         alerts_due env job =
           [send_email_target (frame_path_of (fst job)); send_sms_target]) /\
        (verdict env (snd job) = Some false -> alerts_due env job = []) /\
        (verdict env (snd job) = None -> alerts_due env job = [])) /\
    (forall c now,
        worker c = W_test ->
        exists a c', step_worker env now c = Some (a, c') /\ external_io a = false).
Proof.
  intros env jobs st Hall. split; [| split].
  - apply process_frames_alerts. exact Hall.
  - intros job. unfold alerts_due. repeat split; intros Hv; rewrite Hv; reflexivity.
  - intros c now Hpc. unfold step_worker. rewrite Hpc.
    destruct (latest_frame_to_process (globals c)); eexists; eexists; split; reflexivity.
Qed.

Lemma every_hands_up_cycle_dispatches_alert_witness :
  exists st',
    process_frames Toy.normal
      [(5%Z, Toy.pixel x00 x00 x01); (5%Z, Toy.pixel x00 x00 x02);
       (5%Z, Toy.pixel x00 x00 x01); (6%Z, Toy.pixel x00 x00 x00);
       (7%Z, Toy.pixel x00 x00 x01)] Toy.blank = (Ok tt, st') /\
    threads st' =
      threads Toy.blank ++
      flat_map (alerts_due Toy.normal)
        [(5%Z, Toy.pixel x00 x00 x01); (5%Z, Toy.pixel x00 x00 x02);
         (5%Z, Toy.pixel x00 x00 x01); (6%Z, Toy.pixel x00 x00 x00);
         (7%Z, Toy.pixel x00 x00 x01)] /\
    sent st' = sent Toy.blank.
Proof.
  exact (proj1 (every_hands_up_cycle_dispatches_alert Toy.normal
                  [(5%Z, Toy.pixel x00 x00 x01); (5%Z, Toy.pixel x00 x00 x02);
                   (5%Z, Toy.pixel x00 x00 x01); (6%Z, Toy.pixel x00 x00 x00);
                   (7%Z, Toy.pixel x00 x00 x01)] Toy.blank eq_refl)).
Defined.

(** In the toy world: three hands-up cycles, two of them within the same
    second, start six threads. *)
Example three_alerts_six_threads :
  flat_map (alerts_due Toy.normal)
    [(5%Z, Toy.pixel x00 x00 x01); (5%Z, Toy.pixel x00 x00 x02);
     (5%Z, Toy.pixel x00 x00 x01); (6%Z, Toy.pixel x00 x00 x00);
     (7%Z, Toy.pixel x00 x00 x01)] =
  [send_email_target "upload/frame_5.jpg"; send_sms_target;
   send_email_target "upload/frame_5.jpg"; send_sms_target;
   send_email_target "upload/frame_7.jpg"; send_sms_target].
Proof. vm_compute. reflexivity. Qed.

(** ** The alert functions *)

(** [send_email] returns normally; it prints one line, hands at most one
    message to the SMTP server, and what it does depends on the state
    only through the files on disk. *)
Lemma send_email_outcome env image_path st1 st2 :
  disk st1 = disk st2 ->
  exists m delivered,
    send_email env image_path st1 = (Ok tt, logged st1 m delivered) /\
    send_email env image_path st2 = (Ok tt, logged st2 m delivered) /\
    (m = EmailSent \/ exists e, m = EmailFailed e).
Proof.
  intros Hdisk.
  assert (Hfile : disk_lookup (disk st2) image_path = disk_lookup (disk st1) image_path)
    by (rewrite Hdisk; reflexivity).
  unfold send_email, send_email_try, open_rb, logged. unfold_monad.
  rewrite Hfile.
  destruct (disk_lookup (disk st1) image_path) as [content |]; run.
  2:{ exists (EmailFailed (Exception "FileNotFoundError")), [].
      rewrite !app_nil_r. repeat split; eauto. }
  destruct (smtp_connect env) as [[] | e]; run.
  2:{ exists (EmailFailed e), []. rewrite !app_nil_r. repeat split; eauto. }
  destruct (smtp_starttls env) as [[] | e]; run.
  2:{ exists (EmailFailed e), []. rewrite !app_nil_r. repeat split; eauto. }
  destruct (smtp_login env (EMAIL_USER env) (EMAIL_PASS env)) as [[] | e]; run.
  2:{ exists (EmailFailed e), []. rewrite !app_nil_r. repeat split; eauto. }
  destruct (smtp_send_message env _) as [[] | e]; run.
  2:{ exists (EmailFailed e), []. rewrite !app_nil_r. repeat split; eauto. }
  destruct (smtp_quit env) as [[] | e]; run.
  - eexists. eexists. repeat split; eauto.
  - eexists. eexists. repeat split; eauto.
Qed.

(** [send_sms] returns normally; it prints one line, hands at most one
    message to twilio, and what it does does not depend on the state. *)
Lemma send_sms_outcome env :
  exists m delivered,
    (forall st, send_sms env st = (Ok tt, logged st m delivered)) /\
    (m = TwilioNotInstalled \/ (exists sid, m = SmsSent sid) \/ exists e, m = SmsFailed e).
Proof.
  unfold send_sms, send_sms_try, logged. unfold_monad.
  destruct (TwilioClient env) as [Client |]; run.
  2:{ exists TwilioNotInstalled, []. split; [| eauto].
      intros st. rewrite app_nil_r. reflexivity. }
  destruct (Client (TWILIO_SID env) (TWILIO_AUTH env)) as [client | e]; run.
  2:{ exists (SmsFailed e), []. split; [| eauto].
      intros st. rewrite app_nil_r. reflexivity. }
  destruct (messages_create client _ _ _) as [sid | e]; run.
  - eexists. eexists. split; [intros st; reflexivity | eauto].
  - exists (SmsFailed e), []. split; [| eauto].
    intros st. rewrite app_nil_r. reflexivity.
Qed.

(** Whatever a started thread runs returns normally. *)
Lemma run_target_logged env t st :
  exists m delivered, run_target env t st = (Ok tt, logged st m delivered).
Proof.
  destruct t as [image_path |]; cbn [run_target].
  - destruct (send_email_outcome env image_path st st eq_refl) as [m [d [H _]]].
    exists m, d. exact H.
  - destruct (send_sms_outcome env) as [m [d [H _]]].
    exists m, d. apply H.
Qed.

(** The claim C8 as the spec states it fails in its last part: the code
    never looks at the twilio variables before it calls the client.  In
    the toy world with none of the four variables set and a client that
    accepts, [send_sms] does not skip: it prints the sent line and a
    message has left, with no sender and no recipient.  With only the
    credentials unset and the numbers set, the message leaves for the
    configured number. *)
Lemma unconfigured_sms_is_attempted :
  (TWILIO_SID (Toy.unconfigured false) = None /\
   TWILIO_AUTH (Toy.unconfigured false) = None /\
   TWILIO_FROM (Toy.unconfigured false) = None /\
   TWILIO_TO (Toy.unconfigured false) = None /\
   send_sms (Toy.unconfigured false) Toy.blank =
     (Ok tt,
      logged Toy.blank (SmsSent "SM0002")
        [SmsNotification "🚨 Hands-Up detected!" None None])) /\
  (TWILIO_SID (Toy.unconfigured true) = None /\
   TWILIO_AUTH (Toy.unconfigured true) = None /\
   send_sms (Toy.unconfigured true) Toy.blank =
     (Ok tt,
      logged Toy.blank (SmsSent "SM0001")
        [SmsNotification "🚨 Hands-Up detected!"
           (Some "+10000000001"%string) (Some "+10000000002"%string)])).
Proof. repeat split; vm_compute; reflexivity. Qed.

(** C8, amended.  Both alert functions always return normally, whatever
    their transports do: each prints one line, hands at most one message
    to its transport, and leaves [latest_frame], the slot, the disk and
    the threads alone.  A failure of the SMTP connection or of the login
    is printed as a failed email; without the twilio package [send_sms]
    prints its diagnostic and sends nothing.  The twilio variables are
    not tested: the client is called with whatever they hold; when the
    client refuses to be built, or the service refuses the message, the
    failure is printed and nothing is sent, and when both accept, the
    message leaves and its SID is printed.  The email function does the
    same whether or not the SMS function ran before it, and the other way
    round.  The turn of an alert thread leaves the worker, the request
    threads and the lock where they were. *)
Theorem alert_failures_are_contained :
  forall env image_path st,
    (exists m delivered,
        send_email env image_path st = (Ok tt, logged st m delivered) /\
        (m = EmailSent \/ exists e, m = EmailFailed e)) /\
    (exists m delivered,
        send_sms env st = (Ok tt, logged st m delivered) /\
        (m = TwilioNotInstalled \/ (exists sid, m = SmsSent sid) \/
         exists e, m = SmsFailed e)) /\
    (forall content e,
        disk_lookup (disk st) image_path = Some content ->
        smtp_connect env = Raise e ->
        send_email env image_path st = (Ok tt, logged st (EmailFailed e) [])) /\
    (forall content e,
        disk_lookup (disk st) image_path = Some content ->
        smtp_connect env = Ok tt ->
        smtp_starttls env = Ok tt ->
        smtp_login env (EMAIL_USER env) (EMAIL_PASS env) = Raise e ->
        send_email env image_path st = (Ok tt, logged st (EmailFailed e) [])) /\
    (TwilioClient env = None ->
     send_sms env st = (Ok tt, logged st TwilioNotInstalled [])) /\
    (forall Client e,
        TwilioClient env = Some Client ->
        Client (TWILIO_SID env) (TWILIO_AUTH env) = Raise e ->
        send_sms env st = (Ok tt, logged st (SmsFailed e) [])) /\
    (forall Client client e,
        TwilioClient env = Some Client ->
        Client (TWILIO_SID env) (TWILIO_AUTH env) = Ok client ->
        messages_create client "🚨 Hands-Up detected!" (TWILIO_FROM env) (TWILIO_TO env)
          = Raise e ->
        send_sms env st = (Ok tt, logged st (SmsFailed e) [])) /\
    (forall Client client sid,
        TwilioClient env = Some Client ->
        Client (TWILIO_SID env) (TWILIO_AUTH env) = Ok client ->
        messages_create client "🚨 Hands-Up detected!" (TWILIO_FROM env) (TWILIO_TO env)
          = Ok sid ->
        send_sms env st =
          (Ok tt,
           logged st (SmsSent sid)
             [SmsNotification "🚨 Hands-Up detected!" (TWILIO_FROM env) (TWILIO_TO env)])) /\
    (exists m delivered,
        send_email env image_path st = (Ok tt, logged st m delivered) /\
        send_email env image_path (snd (send_sms env st)) =
          (Ok tt, logged (snd (send_sms env st)) m delivered)) /\
    (exists m delivered,
        send_sms env st = (Ok tt, logged st m delivered) /\
        send_sms env (snd (send_email env image_path st)) =
          (Ok tt, logged (snd (send_email env image_path st)) m delivered)) /\
    (forall n c a c',
        step_alert env n c = Some (a, c') ->
        worker c' = worker c /\
        handlers c' = handlers c /\
        frame_lock c' = frame_lock c /\
        exists m delivered, globals c' = logged (globals c) m delivered).
Proof.
  intros env image_path st.
  destruct (send_sms_outcome env) as [ms [ds [Hsms Hms]]].
  destruct (send_email_outcome env image_path st st eq_refl) as [me [de [Hemail [_ Hme]]]].
  split; [exists me, de; split; assumption |].
  split; [exists ms, ds; split; [apply Hsms | assumption] |].
  split.
  { intros content e Hfile Hconnect.
    unfold send_email, send_email_try, open_rb, logged. unfold_monad.
    rewrite Hfile. run. rewrite Hconnect. run. rewrite app_nil_r. reflexivity. }
  split.
  { intros content e Hfile Hconnect Htls Hlogin.
    unfold send_email, send_email_try, open_rb, logged. unfold_monad.
    rewrite Hfile. run. rewrite Hconnect. run. rewrite Htls. run.
    rewrite Hlogin. run. rewrite app_nil_r. reflexivity. }
  split.
  { intros Hnone. unfold send_sms, logged. rewrite Hnone. unfold_monad.
    rewrite app_nil_r. reflexivity. }
  split.
  { intros Client e Hsome Hclient.
    unfold send_sms, send_sms_try, logged. rewrite Hsome. unfold_monad.
    rewrite Hclient. run. rewrite app_nil_r. reflexivity. }
  split.
  { intros Client client e Hsome Hclient Hcreate.
    unfold send_sms, send_sms_try, logged. rewrite Hsome. unfold_monad.
    rewrite Hclient. run. rewrite Hcreate. run. rewrite app_nil_r. reflexivity. }
  split.
  { intros Client client sid Hsome Hclient Hcreate.
    unfold send_sms, send_sms_try, logged. rewrite Hsome. unfold_monad.
    rewrite Hclient. run. rewrite Hcreate. reflexivity. }
  split.
  { destruct (send_email_outcome env image_path st (snd (send_sms env st)))
      as [m [d [H1 [H2 _]]]].
    { rewrite Hsms. reflexivity. }
    exists m, d. split; assumption. }
  split.
  { exists ms, ds. split; apply Hsms. }
  intros n c a c' Hstep. unfold step_alert in Hstep.
  destruct (existsb (Nat.eqb n) (finished c)); [discriminate |].
  destruct (nth_error (threads (globals c)) n) as [t |]; [| discriminate].
  destruct (run_target_logged env t (globals c)) as [m [d Hrun]].
  rewrite Hrun in Hstep. injection Hstep as _ <-.
  repeat split. exists m, d. reflexivity.
Qed.

(** In the toy world, with twilio installed and not configured and the
    SMTP login refused: both functions return, each prints its failure,
    nothing is sent. *)
Example both_channels_fail_quietly :
  let env := Toy.world false true false in
  let st := snd (process_frame env 5 (Toy.pixel x00 x00 x01) Toy.blank) in
  send_sms env st = (Ok tt, logged st (SmsFailed (Exception "TwilioException")) []) /\
  send_email env (frame_path_of 5) (snd (send_sms env st)) =
    (Ok tt, logged (snd (send_sms env st))
                   (EmailFailed (Exception "SMTPAuthenticationError")) []).
Proof. split; vm_compute; reflexivity. Qed.

(** With twilio not installed and the SMTP server up: the SMS is skipped
    with the diagnostic, the email goes out. *)
Example sms_skipped_email_sent :
  let env := Toy.world true false false in
  let st := snd (process_frame env 5 (Toy.pixel x00 x00 x01) Toy.blank) in
  stdout (snd (send_email env (frame_path_of 5) (snd (send_sms env st)))) =
    stdout st ++ [TwilioNotInstalled; EmailSent] /\
  List.length (sent (snd (send_email env (frame_path_of 5) (snd (send_sms env st))))) = 1.
Proof. split; vm_compute; reflexivity. Qed.

(** ** The lock discipline *)

Lemma nth_error_set_nth {A} (l : list A) n m a b :
  nth_error (set_nth l n a) m = Some b ->
  (m = n /\ b = a /\ n < List.length l) \/ (m <> n /\ nth_error l m = Some b).
Proof.
  revert n m. induction l as [| h t IH]; intros n m H.
  - destruct n, m; discriminate.
  - destruct n as [| n]; destruct m as [| m]; cbn in *.
    + left. injection H as <-. repeat split. lia.
    + right. split; [discriminate | exact H].
    + right. split; [discriminate | exact H].
    + destruct (IH n m H) as [[-> [-> Hlt]] | [Hne Hm]].
      * left. repeat split. lia.
      * right. split; [congruence | exact Hm].
Qed.

Lemma set_nth_same {A} (l : list A) n a b :
  nth_error l n = Some b -> nth_error (set_nth l n a) n = Some a.
Proof.
  revert n. induction l as [| h t IH]; intros [| n] H; cbn in *;
    try discriminate; auto.
Qed.

Lemma set_nth_other {A} (l : list A) n m a :
  m <> n -> nth_error (set_nth l n a) m = nth_error l m.
Proof.
  revert n m. induction l as [| h t IH]; intros [| n] [| m] H; cbn;
    try reflexivity; try congruence.
  apply IH. congruence.
Qed.

Lemma latest_keeps_state env st : snd (latest env st) = st.
Proof.
  unfold latest. unfold_monad.
  destruct (imencode env ".jpg" (latest_frame st)) as [[ok jpeg] | e]; reflexivity.
Qed.

(** The lemmas below rebuild the discipline after each kind of turn. *)

Lemma discipline_initial : lock_discipline initial_config.
Proof.
  constructor; cbn; try discriminate; try congruence.
  - intros [| n] pc H; discriminate.
  - intros [H | H]; discriminate.
Qed.

Lemma discipline_accept r c :
  lock_discipline c -> lock_discipline (accept r c).
Proof.
  intros [Hwb Hwh Hhb Hhh Ha Hfull Hkept].
  constructor; cbn [accept globals frame_lock worker handlers]; auto.
  - intros n pc Hn Hin.
    destruct (Nat.lt_ge_cases n (List.length (handlers c))) as [Hlt | Hge].
    + rewrite nth_error_app1 in Hn by exact Hlt. eauto.
    + rewrite nth_error_app2 in Hn by exact Hge.
      destruct (n - List.length (handlers c)) as [| k]; cbn in Hn.
      * injection Hn as <-. destruct r; discriminate.
      * destruct k; discriminate.
  - intros n Hlock. destruct (Hhh n Hlock) as [pc [Hn Hin]].
    exists pc. split; [| exact Hin].
    rewrite nth_error_app1; [exact Hn |].
    apply nth_error_Some. congruence.
Qed.

(** The globals change, the slot does not. *)
Lemma discipline_globals c st :
  latest_frame_to_process st = latest_frame_to_process (globals c) ->
  lock_discipline c -> lock_discipline (with_globals c st).
Proof.
  intros Hslot [Hwb Hwh Hhb Hhh Ha Hfull Hkept].
  constructor; cbn [with_globals globals frame_lock worker handlers]; auto;
    rewrite Hslot; auto.
Qed.

(** The worker moves outside its block; the lock is not its own. *)
Lemma discipline_worker_outside c pc :
  worker_in_block (worker c) = false ->
  worker_in_block pc = false ->
  (pc = W_lock -> latest_frame_to_process (globals c) <> None) ->
  lock_discipline c -> lock_discipline (with_worker c pc).
Proof.
  intros Hold Hnew Hslot [Hwb Hwh Hhb Hhh Ha Hfull Hkept].
  constructor; cbn [with_worker globals frame_lock worker handlers]; auto.
  - rewrite Hnew. discriminate.
  - intros Hlock. apply Hwh in Hlock. congruence.
  - intros [H | H]; [auto | subst pc; discriminate].
  - intros frame H. subst pc. discriminate.
Qed.

(** A request thread moves outside its block. *)
Lemma discipline_handler_outside c n old pc :
  nth_error (handlers c) n = Some old ->
  handler_in_block old = false ->
  handler_in_block pc = false ->
  lock_discipline c -> lock_discipline (with_handler c n pc).
Proof.
  intros Hn Hold Hnew [Hwb Hwh Hhb Hhh Ha Hfull Hkept].
  constructor; cbn [with_handler globals frame_lock worker handlers]; auto.
  - intros m pc' Hm Hin.
    apply nth_error_set_nth in Hm as [[-> [-> _]] | [Hne Hm]]; [congruence | eauto].
  - intros m Hlock. destruct (Hhh m Hlock) as [pc' [Hm Hin]].
    exists pc'. split; [| exact Hin].
    rewrite set_nth_other; [exact Hm |].
    intros ->. congruence.
Qed.

Lemma discipline_finished c n :
  lock_discipline c -> lock_discipline (with_finished c n).
Proof.
  intros [Hwb Hwh Hhb Hhh Ha Hfull Hkept]. constructor; auto.
Qed.

Ltac discipline_fields :=
  constructor;
  cbn [with_worker with_handler with_lock with_globals
       globals frame_lock worker handlers latest_frame_to_process].

Lemma discipline_step_worker env now c a c' :
  lock_discipline c ->
  step_worker env now c = Some (a, c') ->
  lock_discipline c'.
Proof.
  intros Hinv Hstep. unfold step_worker in Hstep.
  destruct (worker c) as [| | | frame | frame | frame | | e] eqn:Hpc.
  - (* the test *)
    destruct (latest_frame_to_process (globals c)) eqn:Hslot;
      injection Hstep as <- <-;
      apply discipline_worker_outside; rewrite ?Hpc; auto; congruence.
  - (* entering the block *)
    destruct (frame_lock c) eqn:Hlock; [discriminate |].
    injection Hstep as <- <-.
    destruct Hinv as [Hwb Hwh Hhb Hhh Ha Hfull Hkept].
    discipline_fields; auto; try discriminate.
    intros n pc Hn Hin. specialize (Hhb n pc Hn Hin). congruence.
  - (* the copy *)
    destruct Hinv as [Hwb Hwh Hhb Hhh Ha Hfull Hkept].
    destruct (latest_frame_to_process (globals c)) as [frame |] eqn:Hslot.
    2:{ exfalso. apply Hfull; [right; exact Hpc | reflexivity]. }
    cbn in Hstep. injection Hstep as <- <-.
    assert (Hlock : frame_lock c = Some Worker) by (apply Hwb; rewrite Hpc; reflexivity).
    discipline_fields; auto; try discriminate.
    + intros [H | H]; discriminate.
    + intros frame' H. injection H as <-. exact Hslot.
  - (* the clearing *)
    cbn in Hstep. injection Hstep as <- <-.
    destruct Hinv as [Hwb Hwh Hhb Hhh Ha Hfull Hkept].
    assert (Hlock : frame_lock c = Some Worker) by (apply Hwb; rewrite Hpc; reflexivity).
    discipline_fields; auto; try discriminate.
    intros [H | H]; discriminate.
  - (* leaving the block *)
    injection Hstep as <- <-.
    destruct Hinv as [Hwb Hwh Hhb Hhh Ha Hfull Hkept].
    assert (Hlock : frame_lock c = Some Worker) by (apply Hwb; rewrite Hpc; reflexivity).
    discipline_fields; auto; try discriminate.
    + intros n pc Hn Hin. specialize (Hhb n pc Hn Hin). congruence.
    + intros [H | H]; discriminate.
  - (* process_frame *)
    destruct Hinv as [Hwb Hwh Hhb Hhh Ha Hfull Hkept].
    assert (Hout : frame_lock c <> Some Worker).
    { intros H. apply Hwh in H. rewrite Hpc in H. discriminate. }
    destruct (process_frame env now frame (globals c)) as [[[] | e] st];
      injection Hstep as <- <-;
      discipline_fields; auto; try discriminate;
      try (intros H; contradiction); try (intros [H | H]; discriminate).
  - (* the sleep *)
    injection Hstep as <- <-.
    apply discipline_worker_outside; rewrite ?Hpc; auto; discriminate.
  - discriminate.
Qed.

Lemma discipline_step_handler env n c a c' :
  lock_discipline c ->
  step_handler env n c = Some (a, c') ->
  lock_discipline c'.
Proof.
  intros Hinv Hstep. unfold step_handler in Hstep.
  destruct (nth_error (handlers c) n) as [pc |] eqn:Hn; [| discriminate].
  destruct pc as [| request_data | frame | frame | | r | r].
  - (* latest *)
    pose proof (latest_keeps_state env (globals c)) as Hsame.
    destruct (latest env (globals c)) as [[r | e] st]; cbn in Hsame; subst st;
      injection Hstep as <- <-;
      apply (discipline_handler_outside _ n H_latest); auto;
      apply discipline_globals; auto.
  - (* the decoding *)
    destruct (imdecode env request_data) as [[frame |] | e];
      cbn in Hstep; injection Hstep as <- <-;
      apply (discipline_handler_outside _ n (H_decode request_data)); auto.
    apply discipline_globals; auto.
  - (* entering the block *)
    destruct (frame_lock c) eqn:Hlock; [discriminate |].
    injection Hstep as <- <-.
    destruct Hinv as [Hwb Hwh Hhb Hhh Ha Hfull Hkept].
    discipline_fields; auto; try discriminate.
    + intros Hin. specialize (Hwb Hin). congruence.
    + intros m pc Hm Hin.
      apply nth_error_set_nth in Hm as [[-> _] | [Hne Hm]]; [reflexivity |].
      specialize (Hhb m pc Hm Hin). congruence.
    + intros m H. injection H as <-. exists (H_store frame).
      split; [eapply set_nth_same; eassumption | reflexivity].
  - (* the store *)
    cbn in Hstep. injection Hstep as <- <-.
    destruct Hinv as [Hwb Hwh Hhb Hhh Ha Hfull Hkept].
    assert (Hlock : frame_lock c = Some (Handler n)) by (apply (Hhb n (H_store frame)); auto).
    discipline_fields; auto; try discriminate.
    + intros m pc Hm Hin.
      apply nth_error_set_nth in Hm as [[-> _] | [Hne Hm]]; [exact Hlock | eauto].
    + intros m H. assert (m = n) by congruence. subst m.
      exists H_unlock. split; [eapply set_nth_same; eassumption | reflexivity].
    + intros frame' Hpc.
      assert (frame_lock c = Some Worker) by (apply Hwb; rewrite Hpc; reflexivity).
      congruence.
  - (* leaving the block *)
    injection Hstep as <- <-.
    destruct Hinv as [Hwb Hwh Hhb Hhh Ha Hfull Hkept].
    assert (Hlock : frame_lock c = Some (Handler n)) by (apply (Hhb n H_unlock); auto).
    discipline_fields; auto; try discriminate.
    + intros Hin. specialize (Hwb Hin). congruence.
    + intros m pc Hm Hin.
      apply nth_error_set_nth in Hm as [[-> [-> _]] | [Hne Hm]]; [discriminate |].
      specialize (Hhb m pc Hm Hin). congruence.
  - (* the return *)
    injection Hstep as <- <-.
    apply (discipline_handler_outside _ n (H_return r)); auto.
  - discriminate.
Qed.

Lemma discipline_step_alert env n c a c' :
  lock_discipline c ->
  step_alert env n c = Some (a, c') ->
  lock_discipline c'.
Proof.
  intros Hinv Hstep. unfold step_alert in Hstep.
  destruct (existsb (Nat.eqb n) (finished c)); [discriminate |].
  destruct (nth_error (threads (globals c)) n) as [t |]; [| discriminate].
  destruct (run_target_logged env t (globals c)) as [m [d Hrun]].
  rewrite Hrun in Hstep. injection Hstep as <- <-.
  apply discipline_finished, discipline_globals; auto.
Qed.

Lemma discipline_exec env c ev c' :
  lock_discipline c -> exec env c ev = Some c' -> lock_discipline c'.
Proof.
  intros Hinv Hexec. destruct ev as [r | t now]; cbn [exec] in Hexec.
  - injection Hexec as <-. apply discipline_accept. exact Hinv.
  - destruct (step_thread env t now c) as [[a c''] |] eqn:Hstep; [| discriminate].
    injection Hexec as <-.
    destruct t as [| n | n]; cbn [step_thread] in Hstep.
    + eapply discipline_step_worker; eassumption.
    + eapply discipline_step_handler; eassumption.
    + eapply discipline_step_alert; eassumption.
Qed.

(** Every configuration the program reaches keeps the discipline. *)
Lemma reachable_discipline env c : reachable env c -> lock_discipline c.
Proof.
  induction 1 as [| c ev c' _ IH Hexec].
  - apply discipline_initial.
  - eapply discipline_exec; eassumption.
Qed.

Lemma exec_all_reachable env evs :
  forall c tr c',
    reachable env c -> exec_all env c evs = Some (tr, c') -> reachable env c'.
Proof.
  induction evs as [| ev rest IH]; intros c tr c' Hc Hrun; cbn [exec_all] in Hrun.
  - injection Hrun as _ <-. exact Hc.
  - destruct (exec env c ev) as [c1 |] eqn:Hexec; [| discriminate].
    destruct (exec_all env c1 rest) as [[tr1 c2] |] eqn:Hrest; [| discriminate].
    injection Hrun as _ <-.
    eapply IH; [| exact Hrest].
    eapply reachable_exec; eassumption.
Qed.

(** The holder of the lock is never kept waiting: it always has a turn. *)
Lemma holder_has_a_turn env c t now :
  lock_discipline c ->
  frame_lock c = Some t ->
  exists a c', step_thread env t now c = Some (a, c').
Proof.
  intros [Hwb Hwh Hhb Hhh Ha Hfull Hkept] Hlock.
  destruct t as [| n | n]; cbn [step_thread].
  - specialize (Hwh Hlock). unfold step_worker.
    destruct (worker c) as [| | | frame | frame | frame | | e]; try discriminate.
    + destruct (copy_of (latest_frame_to_process (globals c)) (globals c)) as [[frame | e] st];
        eauto.
    + cbn. eauto.
    + eauto.
  - destruct (Hhh n Hlock) as [pc [Hn Hin]]. unfold step_handler. rewrite Hn.
    destruct pc; try discriminate; cbn; eauto.
  - exfalso. exact (Ha n Hlock).
Qed.

(** C9.  In every configuration the program reaches, a turn taken by the
    thread that holds [frame_lock] is one of the slot operations (the
    copy and the clearing in the worker, the store in [upload]) or the
    release; a turn that reaches outside the process ([process_frame]
    with its disk write, estimator call and thread starts; [send_email];
    [send_sms]) is taken by a thread that does not hold the lock, and
    does not take it; and the holder always has a turn, so the lock is
    never held by a thread that waits. *)
Theorem no_external_io_under_frame_lock :
  forall env c t now a c',
    reachable env c ->
    step_thread env t now c = Some (a, c') ->
    (frame_lock c = Some t -> slot_operation a = true /\ external_io a = false) /\
    (external_io a = true -> frame_lock c <> Some t /\ frame_lock c' <> Some t) /\
    (forall holder now',
        frame_lock c = Some holder ->
        exists a' c'', step_thread env holder now' c = Some (a', c'')).
Proof.
  intros env c t now a c' Hreach Hstep.
  pose proof (reachable_discipline env c Hreach) as Hinv.
  split; [| split].
  - intros Hlock. destruct Hinv as [Hwb Hwh Hhb Hhh Ha Hfull Hkept].
    destruct t as [| n | n]; cbn [step_thread] in Hstep.
    + specialize (Hwh Hlock). unfold step_worker in Hstep.
      destruct (worker c) as [| | | frame | frame | frame | | e]; try discriminate.
      * destruct (copy_of (latest_frame_to_process (globals c)) (globals c)) as [[frame | e] st];
          injection Hstep as <- _; split; reflexivity.
      * cbn in Hstep. injection Hstep as <- _. split; reflexivity.
      * injection Hstep as <- _. split; reflexivity.
    + destruct (Hhh n Hlock) as [pc [Hn Hin]].
      unfold step_handler in Hstep. rewrite Hn in Hstep.
      destruct pc; try discriminate; cbn in Hstep;
        injection Hstep as <- _; split; reflexivity.
    + exfalso. exact (Ha n Hlock).
  - intros Hio. destruct Hinv as [Hwb Hwh Hhb Hhh Ha Hfull Hkept].
    destruct t as [| n | n]; cbn [step_thread] in Hstep.
    + unfold step_worker in Hstep.
      destruct (worker c) as [| | | frame | frame | frame | | e] eqn:Hpc;
        try discriminate.
      * destruct (latest_frame_to_process (globals c));
          injection Hstep as <- _; discriminate.
      * destruct (frame_lock c); [discriminate |].
        injection Hstep as <- _. discriminate.
      * destruct (copy_of (latest_frame_to_process (globals c)) (globals c)) as [[frame | e] st];
          injection Hstep as <- _; discriminate.
      * cbn in Hstep. injection Hstep as <- _. discriminate.
      * injection Hstep as <- _. discriminate.
      * assert (Hout : frame_lock c <> Some Worker).
        { intros H. apply Hwh in H. discriminate. }
        destruct (process_frame env now frame (globals c)) as [[[] | e] st];
          injection Hstep as _ <-; split; exact Hout.
      * injection Hstep as <- _. discriminate.
    + unfold step_handler in Hstep.
      destruct (nth_error (handlers c) n) as [pc |]; [| discriminate].
      destruct pc as [| request_data | frame | frame | | r | r]; try discriminate.
      * destruct (latest env (globals c)) as [[r | e] st];
          injection Hstep as <- _; discriminate.
      * destruct (imdecode env request_data) as [[frame |] | e];
          cbn in Hstep; injection Hstep as <- _; discriminate.
      * destruct (frame_lock c); [discriminate |].
        injection Hstep as <- _. discriminate.
      * cbn in Hstep. injection Hstep as <- _. discriminate.
      * injection Hstep as <- _. discriminate.
      * injection Hstep as <- _. discriminate.
    + unfold step_alert in Hstep.
      destruct (existsb (Nat.eqb n) (finished c)); [discriminate |].
      destruct (nth_error (threads (globals c)) n) as [tg |]; [| discriminate].
      destruct (run_target env tg (globals c)) as [r st].
      injection Hstep as _ <-. split; apply Ha.
  - intros holder now' Hlock. apply holder_has_a_turn; assumption.
Qed.

(** In the toy world: a request thread has decoded its upload and entered
    the [with] block; its turn is the store into the slot. *)
Lemma no_external_io_under_frame_lock_witness :
  let c := {| globals := initial_state;
              frame_lock := Some (Handler 0);
              worker := W_test;
              handlers := [H_store (Toy.pixel x01 x02 x03)];
              finished := [] |} in
  let c' := {| globals := with_slot initial_state (Some (Toy.pixel x01 x02 x03));
               frame_lock := Some (Handler 0);
               worker := W_test;
               handlers := [H_unlock];
               finished := [] |} in
  (frame_lock c = Some (Handler 0) ->
   slot_operation store_slot = true /\ external_io store_slot = false) /\
  (external_io store_slot = true ->
   frame_lock c <> Some (Handler 0) /\ frame_lock c' <> Some (Handler 0)) /\
  (forall holder now',
      frame_lock c = Some holder ->
      exists a' c'', step_thread Toy.normal holder now' c = Some (a', c'')).
Proof.
  refine (no_external_io_under_frame_lock Toy.normal _ (Handler 0) 1 store_slot _ _ _).
  - apply (exec_all_reachable Toy.normal
             [arrives (POST_upload [xff; x01; x02; x03]);
              turn (Handler 0) 1; turn (Handler 0) 1]
             initial_config
             [(Handler 0, call_imdecode); (Handler 0, acquire_lock)]).
    + apply reachable_initial.
    + reflexivity.
  - reflexivity.
Defined.

(** ** The Frame Slot *)

Lemma Publish_run frame st :
  Publish frame st = (Ok tt, with_slot st (Some frame)).
Proof. reflexivity. Qed.

Lemma publish_all_run frames :
  forall last st,
    publish_all (frames ++ [last]) st = (Ok tt, with_slot st (Some last)).
Proof.
  induction frames as [| frame rest IH]; intros last st.
  - reflexivity.
  - cbn [app publish_all].
    rewrite (bind_ok _ _ _ _ _ (Publish_run frame st)).
    rewrite IH. reflexivity.
Qed.

Lemma TakeIfPresent_full st frame :
  latest_frame_to_process st = Some frame ->
  TakeIfPresent st = (Ok (Some frame), with_slot st None).
Proof.
  intros Hslot. unfold TakeIfPresent, with_slot. unfold_monad.
  rewrite Hslot. run. rewrite Hslot. reflexivity.
Qed.

Lemma TakeIfPresent_empty st :
  latest_frame_to_process st = None ->
  TakeIfPresent st = (Ok None, st).
Proof.
  intros Hslot. unfold TakeIfPresent. unfold_monad.
  rewrite Hslot. reflexivity.
Qed.

(** [upload] on a buffer that decodes is a Publish of the frame. *)
Lemma upload_publishes env request_data frame st :
  imdecode env request_data = Ok (Some frame) ->
  upload env request_data st =
    (Ok (text_response "OK" 200), snd (Publish frame st)).
Proof.
  intros Hdecode. unfold upload, Publish. unfold_monad.
  rewrite Hdecode. reflexivity.
Qed.

(** A round of the worker is a TakeIfPresent, followed by
    [process_frame] on the frame taken or by the sleep. *)
Lemma frame_worker_round_takes env now st :
  frame_worker_round env now st =
    bind TakeIfPresent
         (fun taken =>
            match taken with
            | Some frame => process_frame env now frame
            | None => sleep
            end) st.
Proof.
  unfold frame_worker_round, TakeIfPresent. unfold_monad.
  destruct (latest_frame_to_process st) as [frame |] eqn:Hslot; run;
    rewrite ?Hslot; reflexivity.
Qed.

(** C2.  Any number of Publish calls with no take in between all return
    normally and leave exactly the last published frame in the slot, the
    earlier ones gone; TakeIfPresent then returns that frame and empties
    the slot, and on an empty slot it returns nothing and changes
    nothing.  Publish and TakeIfPresent are what [upload] and a round of
    [frame_worker] do.  Among the threads, the take is atomic: the
    worker's copy always finds a frame, and when the worker clears the
    slot, the slot still holds the very frame it copied, the worker holds
    the lock, and no request thread is at its store. *)
Theorem frame_slot_keeps_newest :
  forall env frames last st,
    publish_all (frames ++ [last]) st = (Ok tt, with_slot st (Some last)) /\
    TakeIfPresent (with_slot st (Some last)) = (Ok (Some last), with_slot st None) /\
    TakeIfPresent (with_slot st None) = (Ok None, with_slot st None) /\
    (forall request_data frame,
        imdecode env request_data = Ok (Some frame) ->
        upload env request_data st =
          (Ok (text_response "OK" 200), snd (Publish frame st))) /\
    (forall now,
        frame_worker_round env now st =
          bind TakeIfPresent
               (fun taken =>
                  match taken with
                  | Some frame => process_frame env now frame
                  | None => sleep
                  end) st) /\
    (forall c now,
        reachable env c ->
        worker c = W_copy ->
        exists frame,
          latest_frame_to_process (globals c) = Some frame /\
          step_worker env now c = Some (copy_slot, with_worker c (W_clear frame))) /\
    (forall c frame,
        reachable env c ->
        worker c = W_clear frame ->
        latest_frame_to_process (globals c) = Some frame /\
        frame_lock c = Some Worker /\
        forall n pc, nth_error (handlers c) n = Some pc -> handler_in_block pc = false).
Proof.
  intros env frames last st.
  split; [apply publish_all_run |].
  split; [apply (TakeIfPresent_full (with_slot st (Some last)) last); reflexivity |].
  split; [apply (TakeIfPresent_empty (with_slot st None)); reflexivity |].
  split; [intros request_data frame; apply upload_publishes |].
  split; [intros now; apply frame_worker_round_takes |].
  split.
  { intros c now Hreach Hpc.
    destruct (reachable_discipline env c Hreach) as [_ _ _ _ _ Hfull _].
    destruct (latest_frame_to_process (globals c)) as [frame |] eqn:Hslot.
    - exists frame. split; [reflexivity |].
      unfold step_worker. rewrite Hpc, Hslot. reflexivity.
    - exfalso. apply Hfull; [right; exact Hpc | reflexivity]. }
  intros c frame Hreach Hpc.
  destruct (reachable_discipline env c Hreach) as [Hwb Hwh Hhb Hhh Ha Hfull Hkept].
  assert (Hlock : frame_lock c = Some Worker) by (apply Hwb; rewrite Hpc; reflexivity).
  split; [apply Hkept; exact Hpc |].
  split; [exact Hlock |].
  intros n pc Hn. destruct (handler_in_block pc) eqn:Hin; [| reflexivity].
  specialize (Hhb n pc Hn Hin). congruence.
Qed.

(** In the toy world: three uploads, then a round of the worker; the
    worker processes the third frame. *)
Example newest_of_three_is_processed :
  let run :=
    (upload Toy.normal [xff; x01; x01; x00] ;;
     upload Toy.normal [xff; x02; x02; x00] ;;
     upload Toy.normal [xff; x03; x03; x00] ;;
     frame_worker_round Toy.normal 9) in
  disk (snd (run Toy.blank)) = [(frame_path_of 9, Toy.pixel x03 x03 x00)] /\
  latest_frame (snd (run Toy.blank)) = Toy.pixel x03 x03 x00 /\
  latest_frame_to_process (snd (run Toy.blank)) = None.
Proof. repeat split; vm_compute; reflexivity. Qed.

(** ** The placeholder *)

Lemma np_zeros_black rows cols channels :
  shape (np_zeros (rows, cols, channels)) = (rows, cols, channels) /\
  N.of_nat (List.length (data (np_zeros (rows, cols, channels)))) =
    (rows * cols * channels)%N /\
  Forall (fun b => b = x00) (data (np_zeros (rows, cols, channels))).
Proof.
  unfold np_zeros. cbn [shape data]. split; [reflexivity |]. split.
  - rewrite repeat_length. apply N2Nat.id.
  - apply Forall_forall. intros b Hin. apply repeat_spec in Hin. exact Hin.
Qed.

Lemma step_keeps_latest_frame env t now c a c' :
  step_thread env t now c = Some (a, c') ->
  a <> call_process_frame ->
  latest_frame (globals c') = latest_frame (globals c).
Proof.
  intros Hstep Ha. destruct t as [| n | n]; cbn [step_thread] in Hstep.
  - unfold step_worker in Hstep.
    destruct (worker c) as [| | | frame | frame | frame | | e]; try discriminate.
    + destruct (latest_frame_to_process (globals c));
        injection Hstep as _ <-; reflexivity.
    + destruct (frame_lock c); [discriminate |].
      injection Hstep as _ <-. reflexivity.
    + destruct (copy_of (latest_frame_to_process (globals c)) (globals c)) as [[frame | e] st];
        injection Hstep as _ <-; reflexivity.
    + cbn in Hstep. injection Hstep as _ <-. reflexivity.
    + injection Hstep as _ <-. reflexivity.
    + destruct (process_frame env now frame (globals c)) as [[[] | e] st];
        injection Hstep as <- _; contradiction.
    + injection Hstep as _ <-. reflexivity.
  - unfold step_handler in Hstep.
    destruct (nth_error (handlers c) n) as [pc |]; [| discriminate].
    destruct pc as [| request_data | frame | frame | | r | r]; try discriminate.
    + pose proof (latest_keeps_state env (globals c)) as Hsame.
      destruct (latest env (globals c)) as [[r | e] st]; cbn in Hsame; subst st;
        injection Hstep as _ <-; reflexivity.
    + destruct (imdecode env request_data) as [[frame |] | e];
        cbn in Hstep; injection Hstep as _ <-; reflexivity.
    + destruct (frame_lock c); [discriminate |].
      injection Hstep as _ <-. reflexivity.
    + cbn in Hstep. injection Hstep as _ <-. reflexivity.
    + injection Hstep as _ <-. reflexivity.
    + injection Hstep as _ <-. reflexivity.
  - unfold step_alert in Hstep.
    destruct (existsb (Nat.eqb n) (finished c)); [discriminate |].
    destruct (nth_error (threads (globals c)) n) as [tg |]; [| discriminate].
    destruct (run_target_logged env tg (globals c)) as [m [d Hrun]].
    rewrite Hrun in Hstep. injection Hstep as _ <-. reflexivity.
Qed.

Lemma exec_all_keeps_latest_frame env evs :
  forall c tr c',
    exec_all env c evs = Some (tr, c') ->
    (forall t, ~ In (t, call_process_frame) tr) ->
    latest_frame (globals c') = latest_frame (globals c).
Proof.
  induction evs as [| ev rest IH]; intros c tr c' Hrun Hnone; cbn [exec_all] in Hrun.
  - injection Hrun as _ <-. reflexivity.
  - destruct (exec env c ev) as [c1 |] eqn:Hexec; [| discriminate].
    destruct (exec_all env c1 rest) as [[tr1 c2] |] eqn:Hrest; [| discriminate].
    injection Hrun as <- <-.
    rewrite (IH c1 tr1 c2 Hrest).
    2:{ intros t Hin. apply (Hnone t). apply in_or_app. right. exact Hin. }
    destruct ev as [r | t now]; cbn [exec action_of] in *.
    + injection Hexec as <-. reflexivity.
    + destruct (step_thread env t now c) as [[a c1'] |] eqn:Hstep; [| discriminate].
      injection Hexec as ->.
      apply (step_keeps_latest_frame env t now c a c1 Hstep).
      intros ->. apply (Hnone t). apply in_or_app. left. left. reflexivity.
Qed.

(** C10.  After any run from the start in which the worker has not yet
    called [process_frame]: [latest_frame] is still the array of line 40,
    480 rows by 640 columns by 3 channels, every byte zero; [latest]
    returns normally with status 200, type image/jpeg and the codec's
    JPEG of that array as body; and a request thread at [latest] has its
    turn whoever holds the lock. *)
Theorem placeholder_served_before_first_frame :
  forall env evs tr c ok jpeg,
    exec_all env initial_config evs = Some (tr, c) ->
    (forall t, ~ In (t, call_process_frame) tr) ->
    imencode env ".jpg" (np_zeros (480, 640, 3)%N) = Ok (ok, jpeg) ->
    let placeholder := np_zeros (480, 640, 3)%N in
    let answer := {| body := jpeg; status := 200; mimetype := "image/jpeg" |} in
    latest_frame (globals c) = placeholder /\
    latest env (globals c) = (Ok answer, globals c) /\
    (forall n,
        nth_error (handlers c) n = Some H_latest ->
        step_handler env n c =
          Some (call_latest, with_handler (with_globals c (globals c)) n (H_return answer))) /\
    shape placeholder = (480, 640, 3)%N /\
    N.of_nat (List.length (data placeholder)) = (480 * 640 * 3)%N /\
    Forall (fun b => b = x00) (data placeholder).
Proof.
  intros env evs tr c ok jpeg Hrun Hnone Hencode placeholder answer.
  assert (Hframe : latest_frame (globals c) = placeholder).
  { rewrite (exec_all_keeps_latest_frame env evs initial_config tr c Hrun Hnone).
    reflexivity. }
  assert (Hlatest : latest env (globals c) = (Ok answer, globals c)).
  { unfold latest. unfold_monad. rewrite Hframe. unfold placeholder.
    rewrite Hencode. reflexivity. }
  split; [exact Hframe |].
  split; [exact Hlatest |].
  split.
  { intros n Hn. unfold step_handler. rewrite Hn, Hlatest. reflexivity. }
  apply np_zeros_black.
Qed.

(** In the toy world: an upload is decoded and stored while a viewer asks
    for the latest frame; the worker has tested the slot and has not yet
    processed anything. *)
Lemma placeholder_served_before_first_frame_witness :
  latest_frame (globals
     {| globals := with_slot initial_state (Some (Toy.pixel x01 x02 x03));
        frame_lock := Some (Handler 0);
        worker := W_lock;
        handlers := [H_unlock; H_latest];
        finished := [] |}) = np_zeros (480, 640, 3)%N /\
  latest Toy.normal (with_slot initial_state (Some (Toy.pixel x01 x02 x03))) =
    (Ok {| body := [xff; xd8]; status := 200; mimetype := "image/jpeg" |},
     with_slot initial_state (Some (Toy.pixel x01 x02 x03))).
Proof.
  pose proof (placeholder_served_before_first_frame Toy.normal
                [arrives (POST_upload [xff; x01; x02; x03]);
                 turn (Handler 0) 1; turn (Handler 0) 1; turn (Handler 0) 1;
                 arrives GET_latest;
                 turn Worker 1]
                [(Handler 0, call_imdecode); (Handler 0, acquire_lock);
                 (Handler 0, store_slot); (Worker, test_slot)]
                {| globals := with_slot initial_state (Some (Toy.pixel x01 x02 x03));
                   frame_lock := Some (Handler 0);
                   worker := W_lock;
                   handlers := [H_unlock; H_latest];
                   finished := [] |}
                true [xff; xd8] eq_refl) as H.
  cbv zeta in H.
  destruct H as [Hframe [Hlatest _]].
  - intros t [H | [H | [H | [H | []]]]]; discriminate.
  - reflexivity.
  - split; [exact Hframe | exact Hlatest].
Defined.

(** ** The two layers agree *)

Lemma exec_all_turn env c t now a c1 rest tr c2 :
  step_thread env t now c = Some (a, c1) ->
  exec_all env c1 rest = Some (tr, c2) ->
  exec_all env c (turn t now :: rest) = Some ((t, a) :: tr, c2).
Proof.
  intros Hstep Hrest. cbn [exec_all exec action_of].
  rewrite Hstep, Hrest. reflexivity.
Qed.

(** The turns of a request thread at [upload], taken one after the other
    with the lock free, do what [upload] does. *)
Lemma upload_by_turns env n c request_data now :
  frame_lock c = None ->
  nth_error (handlers c) n = Some (H_decode request_data) ->
  exists evs tr c' r,
    exec_all env c evs = Some (tr, c') /\
    Forall (fun ev => ev = turn (Handler n) now) evs /\
    upload env request_data (globals c) = (Ok r, globals c') /\
    nth_error (handlers c') n = Some (H_responded r) /\
    frame_lock c' = None /\
    worker c' = worker c.
Proof.
  intros Hfree Hn.
  destruct (imdecode env request_data) as [[frame |] | e] eqn:Hdecode.
  - (* the buffer decodes: five turns *)
    set (c1 := with_handler c n (H_lock frame)).
    set (c2 := with_handler (with_lock c1 (Some (Handler n))) n (H_store frame)).
    set (c3 := with_handler
                 (with_globals c2 (with_slot (globals c2) (Some frame))) n H_unlock).
    set (c4 := with_handler (with_lock c3 None) n (H_return (text_response "OK" 200))).
    set (c5 := with_handler c4 n (H_responded (text_response "OK" 200))).
    assert (H1 : nth_error (handlers c1) n = Some (H_lock frame))
      by (apply (set_nth_same _ _ _ _ Hn)).
    assert (H2 : nth_error (handlers c2) n = Some (H_store frame))
      by (apply (set_nth_same _ _ _ _ H1)).
    assert (H3 : nth_error (handlers c3) n = Some H_unlock)
      by (apply (set_nth_same _ _ _ _ H2)).
    assert (H4 : nth_error (handlers c4) n = Some (H_return (text_response "OK" 200)))
      by (apply (set_nth_same _ _ _ _ H3)).
    assert (H5 : nth_error (handlers c5) n = Some (H_responded (text_response "OK" 200)))
      by (apply (set_nth_same _ _ _ _ H4)).
    exists (repeat (turn (Handler n) now) 5).
    exists [(Handler n, call_imdecode); (Handler n, acquire_lock);
            (Handler n, store_slot); (Handler n, release_lock);
            (Handler n, return_response)].
    exists c5, (text_response "OK" 200).
    split.
    { cbn [repeat].
      apply (exec_all_turn env c _ _ _ c1).
      { cbn [step_thread]. unfold step_handler. rewrite Hn, Hdecode. reflexivity. }
      apply (exec_all_turn env c1 _ _ _ c2).
      { cbn [step_thread]. unfold step_handler. rewrite H1.
        change (frame_lock c1) with (frame_lock c). rewrite Hfree. reflexivity. }
      apply (exec_all_turn env c2 _ _ _ c3).
      { cbn [step_thread]. unfold step_handler. rewrite H2. reflexivity. }
      apply (exec_all_turn env c3 _ _ _ c4).
      { cbn [step_thread]. unfold step_handler. rewrite H3. reflexivity. }
      apply (exec_all_turn env c4 _ _ _ c5).
      { cbn [step_thread]. unfold step_handler. rewrite H4. reflexivity. }
      reflexivity. }
    split; [apply Forall_forall; intros ev Hin; apply repeat_spec in Hin; exact Hin |].
    split; [rewrite (upload_publishes env request_data frame _ Hdecode); reflexivity |].
    split; [exact H5 |].
    split; reflexivity.
  - (* the buffer is no image: two turns *)
    set (c1 := with_handler c n (H_return (text_response "Error" 500))).
    set (c2 := with_handler c1 n (H_responded (text_response "Error" 500))).
    assert (H1 : nth_error (handlers c1) n = Some (H_return (text_response "Error" 500)))
      by (apply (set_nth_same _ _ _ _ Hn)).
    assert (H2 : nth_error (handlers c2) n = Some (H_responded (text_response "Error" 500)))
      by (apply (set_nth_same _ _ _ _ H1)).
    exists (repeat (turn (Handler n) now) 2).
    exists [(Handler n, call_imdecode); (Handler n, return_response)].
    exists c2, (text_response "Error" 500).
    split.
    { cbn [repeat].
      apply (exec_all_turn env c _ _ _ c1).
      { cbn [step_thread]. unfold step_handler. rewrite Hn, Hdecode. reflexivity. }
      apply (exec_all_turn env c1 _ _ _ c2).
      { cbn [step_thread]. unfold step_handler. rewrite H1. reflexivity. }
      reflexivity. }
    split; [apply Forall_forall; intros ev Hin; apply repeat_spec in Hin; exact Hin |].
    split.
    { unfold upload. unfold_monad. rewrite Hdecode. reflexivity. }
    split; [exact H2 |].
    split; [exact Hfree | reflexivity].
  - (* the decoder raises: two turns *)
    set (st := snd (print (UploadFailed e) (globals c))).
    set (c1 := with_handler (with_globals c st) n (H_return (text_response "Error" 500))).
    set (c2 := with_handler c1 n (H_responded (text_response "Error" 500))).
    assert (H1 : nth_error (handlers c1) n = Some (H_return (text_response "Error" 500)))
      by (apply (set_nth_same _ _ _ _ Hn)).
    assert (H2 : nth_error (handlers c2) n = Some (H_responded (text_response "Error" 500)))
      by (apply (set_nth_same _ _ _ _ H1)).
    exists (repeat (turn (Handler n) now) 2).
    exists [(Handler n, call_imdecode); (Handler n, return_response)].
    exists c2, (text_response "Error" 500).
    split.
    { cbn [repeat].
      apply (exec_all_turn env c _ _ _ c1).
      { cbn [step_thread]. unfold step_handler. rewrite Hn, Hdecode. reflexivity. }
      apply (exec_all_turn env c1 _ _ _ c2).
      { cbn [step_thread]. unfold step_handler. rewrite H1. reflexivity. }
      reflexivity. }
    split; [apply Forall_forall; intros ev Hin; apply repeat_spec in Hin; exact Hin |].
    split.
    { unfold upload. unfold_monad. rewrite Hdecode. reflexivity. }
    split; [exact H2 |].
    split; [exact Hfree | reflexivity].
Qed.

(** The turns of the worker from the top of its loop, taken one after the
    other with the lock free, do what a round of [frame_worker] does; the
    worker ends at the top of the loop again, or terminated when the
    round raises. *)
Lemma frame_worker_round_by_turns env c now :
  frame_lock c = None ->
  worker c = W_test ->
  exists evs tr c',
    exec_all env c evs = Some (tr, c') /\
    Forall (fun ev => ev = turn Worker now) evs /\
    snd (frame_worker_round env now (globals c)) = globals c' /\
    worker c' = match fst (frame_worker_round env now (globals c)) with
                | Ok _ => W_test
                | Raise e => W_terminated e
                end /\
    frame_lock c' = None /\
    handlers c' = handlers c.
Proof.
  intros Hfree Hpc.
  destruct (latest_frame_to_process (globals c)) as [frame |] eqn:Hslot.
  - (* a frame is pending: six turns *)
    set (c1 := with_worker c W_lock).
    set (c2 := with_worker (with_lock c1 (Some Worker)) W_copy).
    set (c3 := with_worker c2 (W_clear frame)).
    set (c4 := with_worker (with_globals c3 (with_slot (globals c3) None)) (W_unlock frame)).
    set (c5 := with_worker (with_lock c4 None) (W_process frame)).
    set (out := process_frame env now frame (globals c5)).
    set (c6 := with_worker (with_globals c5 (snd out))
                 match fst out with Ok _ => W_test | Raise e => W_terminated e end).
    exists (repeat (turn Worker now) 6).
    exists [(Worker, test_slot); (Worker, acquire_lock); (Worker, copy_slot);
            (Worker, clear_slot); (Worker, release_lock); (Worker, call_process_frame)].
    exists c6.
    assert (Hround : frame_worker_round env now (globals c) = out).
    { unfold frame_worker_round. unfold_monad. rewrite Hslot. run.
      rewrite Hslot. reflexivity. }
    split.
    { cbn [repeat].
      apply (exec_all_turn env c _ _ _ c1).
      { cbn [step_thread]. unfold step_worker. rewrite Hpc, Hslot. reflexivity. }
      apply (exec_all_turn env c1 _ _ _ c2).
      { cbn [step_thread]. unfold step_worker. cbn [c1 with_worker worker frame_lock].
        rewrite Hfree. reflexivity. }
      apply (exec_all_turn env c2 _ _ _ c3).
      { cbn [step_thread]. unfold step_worker.
        cbn [c2 c1 with_worker with_lock worker globals]. rewrite Hslot. reflexivity. }
      apply (exec_all_turn env c3 _ _ _ c4).
      { reflexivity. }
      apply (exec_all_turn env c4 _ _ _ c5).
      { reflexivity. }
      apply (exec_all_turn env c5 _ _ _ c6).
      { cbn [step_thread]. unfold step_worker. cbn [c5 with_worker worker].
        fold c5. unfold c6. fold out. destruct out as [[[] | e] st]; reflexivity. }
      reflexivity. }
    split; [apply Forall_forall; intros ev Hin; apply repeat_spec in Hin; exact Hin |].
    rewrite Hround.
    split; [reflexivity |].
    split; [reflexivity |].
    split; reflexivity.
  - (* the slot is empty: the test and the sleep *)
    exists (repeat (turn Worker now) 2).
    exists [(Worker, test_slot); (Worker, call_sleep)].
    exists (with_worker (with_worker c W_sleep) W_test).
    assert (Hround : frame_worker_round env now (globals c) = (Ok tt, globals c)).
    { unfold frame_worker_round. unfold_monad. rewrite Hslot. reflexivity. }
    split.
    { cbn [repeat].
      apply (exec_all_turn env c _ _ _ (with_worker c W_sleep)).
      { cbn [step_thread]. unfold step_worker. rewrite Hpc, Hslot. reflexivity. }
      apply (exec_all_turn env _ _ _ _ (with_worker (with_worker c W_sleep) W_test)).
      { reflexivity. }
      reflexivity. }
    split; [apply Forall_forall; intros ev Hin; apply repeat_spec in Hin; exact Hin |].
    rewrite Hround.
    split; [reflexivity |].
    split; [reflexivity |].
    split; [exact Hfree | reflexivity].
Qed.

(** ** A run from upload to alert *)

(** In the toy world: a frame with both hands up is uploaded, the worker
    takes and processes it, and the two alert threads run, the SMS first.
    The viewer then gets the annotated frame's encoding; both messages
    have left, and the file on disk holds the raw frame. *)
Example upload_to_alert :
  exists tr c,
    exec_all Toy.normal initial_config
      [arrives (POST_upload [xff; x00; x00; x01]);
       turn (Handler 0) 1; turn (Handler 0) 1; turn (Handler 0) 1;
       turn (Handler 0) 1; turn (Handler 0) 1;
       turn Worker 2; turn Worker 2; turn Worker 2; turn Worker 2;
       turn Worker 2; turn Worker 2;
       turn (Alert 1) 3; turn (Alert 0) 3;
       arrives GET_latest; turn (Handler 1) 4; turn (Handler 1) 4;
       turn Worker 5] = Some (tr, c) /\
    tr = [(Handler 0, call_imdecode); (Handler 0, acquire_lock);
          (Handler 0, store_slot); (Handler 0, release_lock);
          (Handler 0, return_response);
          (Worker, test_slot); (Worker, acquire_lock); (Worker, copy_slot);
          (Worker, clear_slot); (Worker, release_lock);
          (Worker, call_process_frame);
          (Alert 1, call_send_sms); (Alert 0, call_send_email);
          (Handler 1, call_latest); (Handler 1, return_response);
          (Worker, test_slot)] /\
    latest_frame (globals c) = Toy.pixel xff xff xff /\
    disk (globals c) = [(frame_path_of 2, Toy.pixel x00 x00 x01)] /\
    stdout (globals c) =
      [WristShoulder 0.10 0.30 0.10 0.30; HandsUp true; SendingAlert;
       SmsSent "SM0001"; EmailSent] /\
    List.length (sent (globals c)) = 2 /\
    worker c = W_sleep /\
    exec Toy.normal c (turn (Alert 0) 6) = None.
Proof.
  eexists. eexists. split; [lazy -[np_zeros]; reflexivity |].
  repeat split; lazy -[np_zeros]; reflexivity.
Qed.

(** * Further properties of the code *)

(** ** What [process_frame] touches *)

(** Whatever the estimator answers, [process_frame] leaves the slot and
    the sent messages alone, adds one file, and starts either no thread or
    one alert dispatch. *)
Lemma process_frame_effect env now frame st :
  exists r st',
    process_frame env now frame st = (r, st') /\
    latest_frame_to_process st' = latest_frame_to_process st /\
    sent st' = sent st /\
    disk st' = (frame_path_of now, frame) :: disk st /\
    (threads st' = threads st \/ threads st' = threads st ++ alert_dispatch now).
Proof.
  unfold process_frame. unfold_monad. run.
  destruct (pose_process env (cvtColor_BGR2RGB env frame)) as [[lm |] | e]; run;
    [| eexists; eexists; repeat split; auto ..].
  destruct (nth_error lm LEFT_WRIST) as [lw |]; run;
    [| eexists; eexists; repeat split; auto].
  destruct (nth_error lm RIGHT_WRIST) as [rw |]; run;
    [| eexists; eexists; repeat split; auto].
  destruct (nth_error lm LEFT_SHOULDER) as [ls |]; run;
    [| eexists; eexists; repeat split; auto].
  destruct (nth_error lm RIGHT_SHOULDER) as [rs |]; run;
    [| eexists; eexists; repeat split; auto].
  destruct (hands_up_of lw ls rw rs); run; eexists; eexists; repeat split; auto.
  right. cbn [threads]. rewrite <- app_assoc. reflexivity.
Qed.

(** X1.  A pose with fewer than seventeen landmarks makes [process_frame]
    raise IndexError at the wrist lookups (indices 15 and 16 are read
    first): by then the frame is on disk, and nothing is printed, stored
    or started.  Nothing catches it: the worker thread ends. *)
Theorem short_pose_raises_index_error :
  forall env now frame c lm,
    worker c = W_process frame ->
    pose_process env (cvtColor_BGR2RGB env frame) = Ok (Some lm) ->
    List.length lm <= RIGHT_WRIST ->
    let st := globals c in
    let st' := {| latest_frame := latest_frame st;
                  latest_frame_to_process := latest_frame_to_process st;
                  disk := (frame_path_of now, frame) :: disk st;
                  threads := threads st;
                  stdout := stdout st;
                  sent := sent st |} in
    process_frame env now frame st = (Raise (Exception "IndexError"), st') /\
    step_worker env now c =
      Some (call_process_frame,
            with_worker (with_globals c st') (W_terminated (Exception "IndexError"))).
Proof.
  intros env now frame c lm Hpc Hpose Hshort st st'. unfold RIGHT_WRIST in Hshort.
  assert (Hrun : process_frame env now frame st = (Raise (Exception "IndexError"), st')).
  { unfold process_frame. unfold_monad. run. rewrite Hpose. run.
    destruct (nth_error lm LEFT_WRIST) as [lw |] eqn:Hlw; run; [| reflexivity].
    assert (Hrw : nth_error lm RIGHT_WRIST = None)
      by (apply nth_error_None; unfold RIGHT_WRIST; lia).
    rewrite Hrw. reflexivity. }
  split; [exact Hrun |].
  unfold step_worker. rewrite Hpc. fold st. rewrite Hrun. reflexivity.
Qed.

Lemma short_pose_raises_index_error_witness :
  process_frame Toy.truncated 5 (Toy.pixel x00 x00 x01) Toy.blank =
    (Raise (Exception "IndexError"),
     {| latest_frame := latest_frame Toy.blank;
        latest_frame_to_process := None;
        disk := [(frame_path_of 5, Toy.pixel x00 x00 x01)];
        threads := [];
        stdout := [];
        sent := [] |}).
Proof.
  apply (proj1 (short_pose_raises_index_error
                  Toy.truncated 5 (Toy.pixel x00 x00 x01)
                  {| globals := Toy.blank; frame_lock := None;
                     worker := W_process (Toy.pixel x00 x00 x01);
                     handlers := []; finished := [] |}
                  (firstn 16 Toy.raised) eq_refl eq_refl (le_n 16))).
Defined.

(** X2.  An upload and a cycle of the worker on another frame do not
    disturb each other: the cycle gives the same outcome whether the new
    frame is published before or after it, and the published frame is in
    the slot either way. *)
Theorem publish_commutes_with_process_frame :
  forall env now frame incoming st,
    process_frame env now frame (snd (Publish incoming st)) =
      (fst (process_frame env now frame st),
       snd (Publish incoming (snd (process_frame env now frame st)))).
Proof.
  intros env now frame incoming st.
  unfold Publish, process_frame. unfold_monad. run.
  destruct (pose_process env (cvtColor_BGR2RGB env frame)) as [[lm |] | e]; run;
    try reflexivity.
  destruct (nth_error lm LEFT_WRIST) as [lw |]; run; try reflexivity.
  destruct (nth_error lm RIGHT_WRIST) as [rw |]; run; try reflexivity.
  destruct (nth_error lm LEFT_SHOULDER) as [ls |]; run; try reflexivity.
  destruct (nth_error lm RIGHT_SHOULDER) as [rs |]; run; try reflexivity.
  destruct (hands_up_of lw ls rw rs); reflexivity.
Qed.

(** ** The loop of the worker *)

(** With an empty slot the loop idles, however long it runs. *)
Lemma frame_worker_idle env clock :
  forall st,
    latest_frame_to_process st = None ->
    frame_worker env clock st = (Ok tt, st).
Proof.
  induction clock as [| now later IH]; intros st Hslot; cbn [frame_worker].
  - reflexivity.
  - assert (Hround : frame_worker_round env now st = (Ok tt, st)).
    { unfold frame_worker_round. unfold_monad. rewrite Hslot. reflexivity. }
    rewrite (bind_ok _ _ _ _ _ Hround). apply IH. exact Hslot.
Qed.

(** A round that finds a frame is [process_frame] on it, from the emptied
    slot. *)
Lemma frame_worker_round_pending env now frame st :
  latest_frame_to_process st = Some frame ->
  frame_worker_round env now st = process_frame env now frame (with_slot st None).
Proof.
  intros Hslot. unfold frame_worker_round, with_slot. unfold_monad.
  rewrite Hslot. run. rewrite Hslot. reflexivity.
Qed.

(** X3.  A pending frame is processed once: with a frame in the slot and
    no further upload, the loop of the worker does what a single call of
    [process_frame] on that frame does from the emptied slot, however many
    rounds follow.  One file is written for it. *)
Theorem pending_frame_is_processed_once :
  forall env now later frame st,
    latest_frame_to_process st = Some frame ->
    frame_worker env (now :: later) st =
      process_frame env now frame (with_slot st None) /\
    disk (snd (frame_worker env (now :: later) st)) =
      (frame_path_of now, frame) :: disk st /\
    latest_frame_to_process (snd (frame_worker env (now :: later) st)) = None.
Proof.
  intros env now later frame st Hslot.
  pose proof (frame_worker_round_pending env now frame st Hslot) as Hround.
  destruct (process_frame_effect env now frame (with_slot st None))
    as [r [st' [Hrun [Hkeep [_ [Hdisk _]]]]]].
  assert (Hloop : frame_worker env (now :: later) st = (r, st')).
  { cbn [frame_worker]. unfold bind at 1. rewrite Hround, Hrun.
    destruct r as [[] | e]; [| reflexivity].
    apply frame_worker_idle. exact Hkeep. }
  rewrite Hloop, Hrun. cbn [snd]. repeat split; assumption.
Qed.

Lemma pending_frame_is_processed_once_witness :
  frame_worker Toy.normal [5; 6; 7; 8]%Z
    (with_slot Toy.blank (Some (Toy.pixel x00 x00 x01))) =
  process_frame Toy.normal 5 (Toy.pixel x00 x00 x01)
    (with_slot (with_slot Toy.blank (Some (Toy.pixel x00 x00 x01))) None).
Proof.
  exact (proj1 (pending_frame_is_processed_once
                  Toy.normal 5 [6; 7; 8]%Z (Toy.pixel x00 x00 x01)
                  (with_slot Toy.blank (Some (Toy.pixel x00 x00 x01))) eq_refl)).
Defined.

(** ** File names *)

Lemma list_ascii_of_string_append a b :
  list_ascii_of_string (a ++ b) = list_ascii_of_string a ++ list_ascii_of_string b.
Proof.
  induction a as [| c a IH]; cbn; [reflexivity | rewrite IH; reflexivity].
Qed.

Lemma string_append_inv_tail a b t :
  (a ++ t)%string = (b ++ t)%string -> a = b.
Proof.
  intros H. apply (f_equal list_ascii_of_string) in H.
  rewrite !list_ascii_of_string_append in H. apply app_inv_tail in H.
  rewrite <- (string_of_list_ascii_of_string a), <- (string_of_list_ascii_of_string b).
  rewrite H. reflexivity.
Qed.


Lemma to_int_proper n : Z.to_int n <> Decimal.Pos Decimal.Nil /\ Z.to_int n <> Decimal.Neg Decimal.Nil.
Proof.
  destruct n as [| p | p]; cbn; split; try discriminate;
    intros H; injection H as H; exact (DecimalPos.Unsigned.to_uint_nonnil p H).
Qed.

(** [str] gives different strings for different numbers. *)
Lemma str_inj a b : str a = str b -> a = b.
Proof.
  unfold str. intros H.
  apply DecimalZ.to_int_inj.
  destruct (to_int_proper a) as [Ha1 Ha2]. destruct (to_int_proper b) as [Hb1 Hb2].
  pose proof (NilZero.isi (Z.to_int a) Ha1 Ha2) as Ia.
  pose proof (NilZero.isi (Z.to_int b) Hb1 Hb2) as Ib.
  rewrite H in Ia. rewrite Ia in Ib. injection Ib as Ib. exact Ib.
Qed.

Lemma frame_path_of_inj a b : frame_path_of a = frame_path_of b -> a = b.
Proof.
  unfold frame_path_of, path_join, UPLOAD_FOLDER. cbn [append].
  intros H. injection H as H.
  apply string_append_inv_tail in H. apply str_inj. exact H.
Qed.






(** X4.  Frames processed in different seconds are written to different
    files, each holding its frame; frames processed in the same second
    are written to the same file, which then holds the later one. *)
Theorem frames_on_disk_by_second :
  forall env now1 now2 frame1 frame2 st,
    let st1 := snd (process_frame env now1 frame1 st) in
    let st2 := snd (process_frame env now2 frame2 st1) in
    (frame_path_of now1 = frame_path_of now2 <-> now1 = now2) /\
    disk_lookup (disk st2) (frame_path_of now2) = Some frame2 /\
    (now1 <> now2 -> disk_lookup (disk st2) (frame_path_of now1) = Some frame1) /\
    (now1 = now2 -> disk_lookup (disk st2) (frame_path_of now1) = Some frame2).
Proof.
  intros env now1 now2 frame1 frame2 st st1 st2.
  destruct (process_frame_effect env now1 frame1 st) as [r1 [s1 [Hrun1 [_ [_ [Hdisk1 _]]]]]].
  assert (Hst1 : st1 = s1) by (unfold st1; rewrite Hrun1; reflexivity).
  destruct (process_frame_effect env now2 frame2 st1) as [r2 [s2 [Hrun2 [_ [_ [Hdisk2 _]]]]]].
  assert (Hst2 : st2 = s2) by (unfold st2; rewrite Hrun2; reflexivity).
  rewrite Hst2, Hdisk2, Hst1, Hdisk1. cbn [disk_lookup].
  split; [split; [apply frame_path_of_inj | intros ->; reflexivity] |].
  split; [rewrite String.eqb_refl; reflexivity |].
  split.
  - intros Hne.
    assert (Hp : String.eqb (frame_path_of now2) (frame_path_of now1) = false).
    { apply String.eqb_neq. intros H. apply frame_path_of_inj in H. congruence. }
    rewrite Hp, String.eqb_refl. reflexivity.
  - intros ->. rewrite String.eqb_refl. reflexivity.
Qed.

(** ** The alert email *)

(** What [send_email] does when the file is there, step by step. *)
Lemma send_email_steps env image_path st content :
  disk_lookup (disk st) image_path = Some content ->
  send_email env image_path st =
    match smtp_connect env with
    | Raise e => (Ok tt, logged st (EmailFailed e) [])
    | Ok _ =>
    match smtp_starttls env with
    | Raise e => (Ok tt, logged st (EmailFailed e) [])
    | Ok _ =>
    match smtp_login env (EMAIL_USER env) (EMAIL_PASS env) with
    | Raise e => (Ok tt, logged st (EmailFailed e) [])
    | Ok _ =>
    match smtp_send_message env (alert_email env image_path content) with
    | Raise e => (Ok tt, logged st (EmailFailed e) [])
    | Ok _ =>
    match smtp_quit env with
    | Raise e =>
        (Ok tt, logged st (EmailFailed e)
                       [EmailNotification (alert_email env image_path content)])
    | Ok _ =>
        (Ok tt, logged st EmailSent
                       [EmailNotification (alert_email env image_path content)])
    end end end end end.
Proof.
  intros Hfile.
  unfold send_email, send_email_try, open_rb, logged, alert_email. unfold_monad.
  rewrite Hfile. run.
  destruct (smtp_connect env) as [[] | e]; run; [| rewrite app_nil_r; reflexivity].
  destruct (smtp_starttls env) as [[] | e]; run; [| rewrite app_nil_r; reflexivity].
  destruct (smtp_login env (EMAIL_USER env) (EMAIL_PASS env)) as [[] | e]; run;
    [| rewrite app_nil_r; reflexivity].
  destruct (smtp_send_message env _) as [[] | e]; run; [| rewrite app_nil_r; reflexivity].
  destruct (smtp_quit env) as [[] | e]; reflexivity.
Qed.

Lemma send_email_no_file env image_path st :
  disk_lookup (disk st) image_path = None ->
  send_email env image_path st =
    (Ok tt, logged st (EmailFailed (Exception "FileNotFoundError")) []).
Proof.
  intros Hfile.
  unfold send_email, send_email_try, open_rb, logged. unfold_monad.
  rewrite Hfile. run. rewrite app_nil_r. reflexivity.
Qed.

Lemma app_one_inj {A} (l : list A) a b : l ++ [a] = l ++ [b] -> a = b.
Proof. intros H. apply app_inv_head in H. injection H as H. exact H. Qed.

(** X5.  [send_email] prints the sent line exactly when the file is there
    and the connection, STARTTLS, the login, the sending and the quit all
    succeed.  The message has left as soon as the sending succeeded: when
    only the quit raises, the message is with the server and the failure
    line is printed all the same.  When the file is missing or a step up
    to the sending fails, nothing is sent. *)
Theorem email_sent_line_iff_all_steps_succeed :
  forall env image_path st,
    let st' := snd (send_email env image_path st) in
    let accepted content :=
      smtp_connect env = Ok tt /\
      smtp_starttls env = Ok tt /\
      smtp_login env (EMAIL_USER env) (EMAIL_PASS env) = Ok tt /\
      smtp_send_message env (alert_email env image_path content) = Ok tt in
    (stdout st' = stdout st ++ [EmailSent] <->
     exists content,
       disk_lookup (disk st) image_path = Some content /\
       accepted content /\ smtp_quit env = Ok tt) /\
    (forall content,
        disk_lookup (disk st) image_path = Some content ->
        accepted content ->
        sent st' = sent st ++ [EmailNotification (alert_email env image_path content)]) /\
    (forall content e,
        disk_lookup (disk st) image_path = Some content ->
        accepted content ->
        smtp_quit env = Raise e ->
        stdout st' = stdout st ++ [EmailFailed e]) /\
    (disk_lookup (disk st) image_path = None \/
     (exists content,
         disk_lookup (disk st) image_path = Some content /\ ~ accepted content) ->
     sent st' = sent st).
Proof.
  intros env image_path st st' accepted. unfold st', accepted. clear st' accepted.
  destruct (disk_lookup (disk st) image_path) as [content |] eqn:Hfile.
  2:{ rewrite (send_email_no_file env image_path st Hfile). cbn [snd logged stdout sent].
      split; [| split; [| split]].
      - split.
        + intros H. apply app_one_inj in H. discriminate.
        + intros [content [H _]]. discriminate.
      - intros content H. discriminate.
      - intros content e H. discriminate.
      - intros _. apply app_nil_r. }
  rewrite (send_email_steps env image_path st content Hfile).
  destruct (smtp_connect env) as [[] | e1].
  2:{ cbn [snd logged stdout sent]. split; [| split; [| split]].
      - split; [intros H; apply app_one_inj in H; discriminate |].
        intros [c [_ [[H _] _]]]. discriminate.
      - intros c _ [H _]. discriminate.
      - intros c e _ [H _]. discriminate.
      - intros _. apply app_nil_r. }
  destruct (smtp_starttls env) as [[] | e2].
  2:{ cbn [snd logged stdout sent]. split; [| split; [| split]].
      - split; [intros H; apply app_one_inj in H; discriminate |].
        intros [c [_ [[_ [H _]] _]]]. discriminate.
      - intros c _ [_ [H _]]. discriminate.
      - intros c e _ [_ [H _]]. discriminate.
      - intros _. apply app_nil_r. }
  destruct (smtp_login env (EMAIL_USER env) (EMAIL_PASS env)) as [[] | e3].
  2:{ cbn [snd logged stdout sent]. split; [| split; [| split]].
      - split; [intros H; apply app_one_inj in H; discriminate |].
        intros [c [_ [[_ [_ [H _]]] _]]]. discriminate.
      - intros c _ [_ [_ [H _]]]. discriminate.
      - intros c e _ [_ [_ [H _]]]. discriminate.
      - intros _. apply app_nil_r. }
  destruct (smtp_send_message env (alert_email env image_path content)) as [[] | e4] eqn:Hsend.
  2:{ cbn [snd logged stdout sent]. split; [| split; [| split]].
      - split; [intros H; apply app_one_inj in H; discriminate |].
        intros [c [Hc [[_ [_ [_ H]]] _]]]. injection Hc as <-. congruence.
      - intros c Hc [_ [_ [_ H]]]. injection Hc as <-. congruence.
      - intros c e Hc [_ [_ [_ H]]]. injection Hc as <-. congruence.
      - intros _. apply app_nil_r. }
  destruct (smtp_quit env) as [[] | e5]; cbn [snd logged stdout sent].
  - split; [| split; [| split]].
    + split; [intros _ | reflexivity]. exists content. repeat split; assumption.
    + intros c Hc _. injection Hc as <-. reflexivity.
    + intros c e _ _ H. discriminate.
    + intros [H | [c [Hc Hnot]]]; [discriminate |].
      injection Hc as <-. exfalso. apply Hnot. repeat split; assumption.
  - split; [| split; [| split]].
    + split; [intros H; apply app_one_inj in H; discriminate |].
      intros [c [_ [_ H]]]. discriminate.
    + intros c Hc _. injection Hc as <-. reflexivity.
    + intros c e _ _ H. injection H as <-. reflexivity.
    + intros [H | [c [Hc Hnot]]]; [discriminate |].
      injection Hc as <-. exfalso. apply Hnot. repeat split; assumption.
Qed.



(** ** From the upload to the viewer *)

Lemma process_frame_shows env now frame st :
  estimator_answers env frame = true ->
  exists st',
    process_frame env now frame st = (Ok tt, st') /\
    latest_frame st' = shown_frame env frame /\
    latest_frame_to_process st' = latest_frame_to_process st /\
    disk st' = (frame_path_of now, frame) :: disk st.
Proof.
  unfold estimator_answers, shown_frame.
  destruct (pose_process env (cvtColor_BGR2RGB env frame)) as [[lm |] | e] eqn:Hpose;
    [| | discriminate].
  - destruct (nth_error lm LEFT_WRIST) as [lw |] eqn:Hlw; [| discriminate].
    destruct (nth_error lm LEFT_SHOULDER) as [ls |] eqn:Hls; [| discriminate].
    destruct (nth_error lm RIGHT_WRIST) as [rw |] eqn:Hrw; [| discriminate].
    destruct (nth_error lm RIGHT_SHOULDER) as [rs |] eqn:Hrs; [| discriminate].
    intros _. eexists. split.
    + apply (process_frame_found env now frame st lm lw ls rw rs); assumption.
    + repeat split; reflexivity.
  - intros _. eexists. split.
    + unfold process_frame. unfold_monad. run. rewrite Hpose. reflexivity.
    + repeat split; reflexivity.
Qed.

(** X7.  An upload that decodes, a round of the worker and a request for
    the latest frame, one after the other: whatever was pending or shown
    before, the viewer gets status 200, type image/jpeg and the codec's
    encoding of the uploaded frame (with the skeleton when a pose is
    found); the slot is empty again and the raw frame is on disk. *)
Theorem uploaded_frame_reaches_viewer :
  forall env request_data frame now st ok jpeg,
    imdecode env request_data = Ok (Some frame) ->
    estimator_answers env frame = true ->
    imencode env ".jpg" (shown_frame env frame) = Ok (ok, jpeg) ->
    exists st',
      (upload env request_data ;; frame_worker_round env now ;; latest env) st =
        (Ok {| body := jpeg; status := 200; mimetype := "image/jpeg" |}, st') /\
      latest_frame st' = shown_frame env frame /\
      latest_frame_to_process st' = None /\
      disk_lookup (disk st') (frame_path_of now) = Some frame.
Proof.
  intros env request_data frame now st ok jpeg Hdecode Hanswers Hencode.
  pose proof (upload_publishes env request_data frame st Hdecode) as Hupload.
  rewrite Publish_run in Hupload. cbn [snd] in Hupload.
  pose proof (frame_worker_round_pending env now frame (with_slot st (Some frame)) eq_refl)
    as Hround.
  destruct (process_frame_shows env now frame
              (with_slot (with_slot st (Some frame)) None) Hanswers)
    as [st1 [Hrun [Hshown [Hslot Hdisk]]]].
  rewrite Hrun in Hround.
  exists st1. split.
  - rewrite (bind_ok _ _ _ _ _ Hupload), (bind_ok _ _ _ _ _ Hround).
    unfold latest. unfold_monad. rewrite Hshown, Hencode. reflexivity.
  - split; [exact Hshown |]. split; [exact Hslot |].
    rewrite Hdisk. cbn [disk_lookup]. rewrite String.eqb_refl. reflexivity.
Qed.

Lemma uploaded_frame_reaches_viewer_witness :
  exists st',
    (upload Toy.normal [xff; x00; x00; x01] ;; frame_worker_round Toy.normal 5 ;;
     latest Toy.normal) (with_slot Toy.blank (Some (Toy.pixel x09 x09 x09))) =
      (Ok {| body := [xff; xd8]; status := 200; mimetype := "image/jpeg" |}, st') /\
    latest_frame st' = shown_frame Toy.normal (Toy.pixel x00 x00 x01) /\
    latest_frame_to_process st' = None /\
    disk_lookup (disk st') (frame_path_of 5) = Some (Toy.pixel x00 x00 x01).
Proof.
  apply (uploaded_frame_reaches_viewer Toy.normal [xff; x00; x00; x01]
           (Toy.pixel x00 x00 x01) 5
           (with_slot Toy.blank (Some (Toy.pixel x09 x09 x09))) true [xff; xd8]);
    reflexivity.
Defined.

(** ** The lock among the threads *)

(** X8.  In every configuration the program reaches, at most one thread
    stands inside a [with frame_lock] block, and a thread stands inside
    its block exactly when it is the holder of the lock. *)
Theorem frame_lock_mutual_exclusion :
  forall env c,
    reachable env c ->
    (forall t1 t2, in_block c t1 = true -> in_block c t2 = true -> t1 = t2) /\
    (forall t, in_block c t = true <-> frame_lock c = Some t).
Proof.
  intros env c Hreach.
  destruct (reachable_discipline env c Hreach) as [Hwb Hwh Hhb Hhh Ha Hfull Hkept].
  assert (Hiff : forall t, in_block c t = true <-> frame_lock c = Some t).
  { intros [| n | n]; cbn [in_block]; split.
    - exact Hwb.
    - exact Hwh.
    - destruct (nth_error (handlers c) n) as [pc |] eqn:Hn; [| discriminate].
      apply (Hhb n pc Hn).
    - intros Hlock. destruct (Hhh n Hlock) as [pc [Hn Hin]]. rewrite Hn. exact Hin.
    - discriminate.
    - intros Hlock. exfalso. exact (Ha n Hlock). }
  split; [| exact Hiff].
  intros t1 t2 H1 H2. apply Hiff in H1. apply Hiff in H2. congruence.
Qed.

(** In the toy world: one request thread is at its store, a second one
    waits for the lock. *)
Lemma frame_lock_mutual_exclusion_witness :
  let c := {| globals := initial_state;
              frame_lock := Some (Handler 0);
              worker := W_test;
              handlers := [H_store (Toy.pixel x01 x02 x03); H_lock (Toy.pixel x04 x05 x06)];
              finished := [] |} in
  (forall t1 t2, in_block c t1 = true -> in_block c t2 = true -> t1 = t2) /\
  (forall t, in_block c t = true <-> frame_lock c = Some t).
Proof.
  apply (frame_lock_mutual_exclusion Toy.normal).
  apply (exec_all_reachable Toy.normal
           [arrives (POST_upload [xff; x01; x02; x03]);
            arrives (POST_upload [xff; x04; x05; x06]);
            turn (Handler 0) 1; turn (Handler 1) 1; turn (Handler 0) 1]
           initial_config
           [(Handler 0, call_imdecode); (Handler 1, call_imdecode);
            (Handler 0, acquire_lock)]).
  - apply reachable_initial.
  - reflexivity.
Defined.

(** The holder of the lock gives it back by its own next turns, three at
    most, all of them slot operations; the request threads other than the
    holder stay where they are. *)
Lemma holder_releases env c t now :
  lock_discipline c ->
  frame_lock c = Some t ->
  exists k tr c',
    k <= 3 /\
    exec_all env c (repeat (turn t now) k) = Some (tr, c') /\
    frame_lock c' = None /\
    Forall (fun ta => fst ta = t /\ slot_operation (snd ta) = true) tr /\
    (forall n, t <> Handler n -> nth_error (handlers c') n = nth_error (handlers c) n).
Proof.
  intros [Hwb Hwh Hhb Hhh Ha Hfull Hkept] Hlock.
  destruct t as [| m | m].
  - (* the worker holds it *)
    specialize (Hwh Hlock).
    destruct (worker c) as [| | | frame | frame | frame | | e] eqn:Hpc; try discriminate.
    + destruct (latest_frame_to_process (globals c)) as [frame |] eqn:Hslot.
      2:{ exfalso. apply Hfull; [right; reflexivity | reflexivity]. }
      set (c1 := with_worker c (W_clear frame)).
      set (c2 := with_worker (with_globals c1 (with_slot (globals c1) None)) (W_unlock frame)).
      set (c3 := with_worker (with_lock c2 None) (W_process frame)).
      exists 3, [(Worker, copy_slot); (Worker, clear_slot); (Worker, release_lock)], c3.
      split; [lia |]. split.
      { cbn [repeat].
        apply (exec_all_turn env c _ _ _ c1).
        { cbn [step_thread]. unfold step_worker. rewrite Hpc, Hslot. reflexivity. }
        apply (exec_all_turn env c1 _ _ _ c2); [reflexivity |].
        apply (exec_all_turn env c2 _ _ _ c3); [reflexivity |].
        reflexivity. }
      split; [reflexivity |]. split; [repeat constructor |].
      intros n _. reflexivity.
    + set (c2 := with_worker (with_globals c (with_slot (globals c) None)) (W_unlock frame)).
      set (c3 := with_worker (with_lock c2 None) (W_process frame)).
      exists 2, [(Worker, clear_slot); (Worker, release_lock)], c3.
      split; [lia |]. split.
      { cbn [repeat].
        apply (exec_all_turn env c _ _ _ c2).
        { cbn [step_thread]. unfold step_worker. rewrite Hpc. reflexivity. }
        apply (exec_all_turn env c2 _ _ _ c3); [reflexivity |].
        reflexivity. }
      split; [reflexivity |]. split; [repeat constructor |].
      intros n _. reflexivity.
    + set (c3 := with_worker (with_lock c None) (W_process frame)).
      exists 1, [(Worker, release_lock)], c3.
      split; [lia |]. split.
      { cbn [repeat].
        apply (exec_all_turn env c _ _ _ c3).
        { cbn [step_thread]. unfold step_worker. rewrite Hpc. reflexivity. }
        reflexivity. }
      split; [reflexivity |]. split; [repeat constructor |].
      intros n _. reflexivity.
  - (* a request thread holds it *)
    destruct (Hhh m Hlock) as [pc [Hm Hin]].
    destruct pc as [| request_data | frame | frame | | r | r]; try discriminate.
    + set (c1 := with_handler (with_globals c (with_slot (globals c) (Some frame))) m H_unlock).
      set (c2 := with_handler (with_lock c1 None) m (H_return (text_response "OK" 200))).
      assert (H1 : nth_error (handlers c1) m = Some H_unlock)
        by (apply (set_nth_same _ _ _ _ Hm)).
      exists 2, [(Handler m, store_slot); (Handler m, release_lock)], c2.
      split; [lia |]. split.
      { cbn [repeat].
        apply (exec_all_turn env c _ _ _ c1).
        { cbn [step_thread]. unfold step_handler. rewrite Hm. reflexivity. }
        apply (exec_all_turn env c1 _ _ _ c2).
        { cbn [step_thread]. unfold step_handler. rewrite H1. reflexivity. }
        reflexivity. }
      split; [reflexivity |]. split; [repeat constructor |].
      intros n Hn. assert (n <> m) by congruence.
      cbn [c2 c1 with_handler with_lock with_globals handlers].
      rewrite !set_nth_other by assumption. reflexivity.
    + set (c2 := with_handler (with_lock c None) m (H_return (text_response "OK" 200))).
      exists 1, [(Handler m, release_lock)], c2.
      split; [lia |]. split.
      { cbn [repeat].
        apply (exec_all_turn env c _ _ _ c2).
        { cbn [step_thread]. unfold step_handler. rewrite Hm. reflexivity. }
        reflexivity. }
      split; [reflexivity |]. split; [repeat constructor |].
      intros n Hn. assert (n <> m) by congruence.
      cbn [c2 with_handler with_lock handlers].
      rewrite set_nth_other by assumption. reflexivity.
  - exfalso. exact (Ha m Hlock).
Qed.

(** X9.  Whoever holds [frame_lock] gives it back by its own next turns:
    at most three of them, each a slot operation or the release, none
    waiting for anything. *)
Theorem frame_lock_released_within_three_turns :
  forall env c t now,
    reachable env c ->
    frame_lock c = Some t ->
    exists k tr c',
      k <= 3 /\
      exec_all env c (repeat (turn t now) k) = Some (tr, c') /\
      frame_lock c' = None /\
      Forall (fun ta => fst ta = t /\ slot_operation (snd ta) = true) tr.
Proof.
  intros env c t now Hreach Hlock.
  destruct (holder_releases env c t now (reachable_discipline env c Hreach) Hlock)
    as [k [tr [c' [Hk [Hrun [Hfree [Htr _]]]]]]].
  exists k, tr, c'. repeat split; assumption.
Qed.

(** In the toy world: the worker has just entered its block while a
    request thread waits with the next frame. *)
Lemma frame_lock_released_within_three_turns_witness :
  exists k tr c',
    k <= 3 /\
    exec_all Toy.normal
      {| globals := with_slot initial_state (Some (Toy.pixel x01 x02 x03));
         frame_lock := Some Worker;
         worker := W_copy;
         handlers := [H_responded (text_response "OK" 200);
                      H_lock (Toy.pixel x04 x05 x06)];
         finished := [] |}
      (repeat (turn Worker 2) k) = Some (tr, c') /\
    frame_lock c' = None /\
    Forall (fun ta => fst ta = Worker /\ slot_operation (snd ta) = true) tr.
Proof.
  apply (frame_lock_released_within_three_turns Toy.normal).
  - apply (exec_all_reachable Toy.normal
             [arrives (POST_upload [xff; x01; x02; x03]);
              turn (Handler 0) 1; turn (Handler 0) 1; turn (Handler 0) 1;
              turn (Handler 0) 1; turn (Handler 0) 1;
              arrives (POST_upload [xff; x04; x05; x06]);
              turn (Handler 1) 1;
              turn Worker 2; turn Worker 2]
             initial_config
             [(Handler 0, call_imdecode); (Handler 0, acquire_lock);
              (Handler 0, store_slot); (Handler 0, release_lock);
              (Handler 0, return_response); (Handler 1, call_imdecode);
              (Worker, test_slot); (Worker, acquire_lock)]).
    + apply reachable_initial.
    + lazy -[np_zeros]. reflexivity.
  - reflexivity.
Defined.

(** ** An upload among the threads *)

Lemma exec_all_app env evs1 :
  forall c evs2 tr1 c1 tr2 c2,
    exec_all env c evs1 = Some (tr1, c1) ->
    exec_all env c1 evs2 = Some (tr2, c2) ->
    exec_all env c (evs1 ++ evs2) = Some (tr1 ++ tr2, c2).
Proof.
  induction evs1 as [| ev rest IH]; intros c evs2 tr1 c1 tr2 c2 H1 H2.
  - cbn [exec_all] in H1. injection H1 as <- <-. exact H2.
  - cbn [exec_all app] in *.
    destruct (exec env c ev) as [c0 |]; [| discriminate].
    destruct (exec_all env c0 rest) as [[tr0 c0'] |] eqn:Hrest; [| discriminate].
    injection H1 as <- <-.
    rewrite (IH c0 evs2 tr0 c0' tr2 c2 Hrest H2).
    rewrite app_assoc. reflexivity.
Qed.

(** A request thread never takes a turn that reaches outside the
    process. *)
Lemma step_handler_no_io env n c a c' :
  step_handler env n c = Some (a, c') -> external_io a = false.
Proof.
  unfold step_handler.
  destruct (nth_error (handlers c) n) as [pc |]; [| discriminate].
  destruct pc as [| request_data | frame | frame | | r | r]; try discriminate.
  - destruct (latest env (globals c)) as [[r | e] st]; intros H; injection H as <- _; reflexivity.
  - destruct (imdecode env request_data) as [[frame |] | e]; cbn;
      intros H; injection H as <- _; reflexivity.
  - destruct (frame_lock c); [discriminate |]. intros H; injection H as <- _; reflexivity.
  - cbn. intros H; injection H as <- _; reflexivity.
  - intros H; injection H as <- _; reflexivity.
  - intros H; injection H as <- _; reflexivity.
Qed.

Lemma handler_turns_no_io env n now evs :
  forall c tr c',
    Forall (fun ev => ev = turn (Handler n) now) evs ->
    exec_all env c evs = Some (tr, c') ->
    Forall (fun ta => external_io (snd ta) = false) tr.
Proof.
  induction evs as [| ev rest IH]; intros c tr c' Hall Hrun; cbn [exec_all] in Hrun.
  - injection Hrun as <- _. constructor.
  - inversion Hall as [| ? ? Hev Hrest]; subst.
    cbn [exec action_of step_thread] in Hrun.
    destruct (step_handler env n c) as [[a c1] |] eqn:Hstep; [| discriminate].
    destruct (exec_all env c1 rest) as [[tr1 c2] |] eqn:Hrest'; [| discriminate].
    injection Hrun as <- <-.
    constructor.
    + exact (step_handler_no_io env n c a c1 Hstep).
    + exact (IH c1 tr1 c2 Hrest Hrest').
Qed.

(** The answer of [upload] depends on the buffer only. *)
Lemma upload_answer env request_data st1 st2 :
  fst (upload env request_data st1) = fst (upload env request_data st2).
Proof.
  unfold upload. unfold_monad.
  destruct (imdecode env request_data) as [[frame |] | e]; reflexivity.
Qed.

(** X10.  A request thread that stands at the start of [upload] can always
    be brought to its answer by turns that are all in memory: its own,
    preceded by the slot operations of whoever holds the lock.  No
    [process_frame], no email and no SMS has to happen first. *)
Theorem upload_never_waits_for_processing :
  forall env c n request_data,
    reachable env c ->
    nth_error (handlers c) n = Some (H_decode request_data) ->
    exists evs tr c' r,
      exec_all env c evs = Some (tr, c') /\
      nth_error (handlers c') n = Some (H_responded r) /\
      Forall (fun ta => external_io (snd ta) = false) tr /\
      (forall st, fst (upload env request_data st) = Ok r).
Proof.
  intros env c n request_data Hreach Hn.
  set (now := 0%Z).
  pose proof (reachable_discipline env c Hreach) as Hinv.
  assert (Hfree : exists evs0 tr0 c0,
             exec_all env c evs0 = Some (tr0, c0) /\
             frame_lock c0 = None /\
             Forall (fun ta => external_io (snd ta) = false) tr0 /\
             nth_error (handlers c0) n = Some (H_decode request_data)).
  { destruct (frame_lock c) as [t |] eqn:Hlock.
    - destruct (holder_releases env c t now Hinv Hlock)
        as [k [tr [c0 [_ [Hrun [Hnone [Htr Hkeep]]]]]]].
      exists (repeat (turn t now) k), tr, c0.
      split; [exact Hrun |]. split; [exact Hnone |]. split.
      + eapply Forall_impl; [| exact Htr].
        intros [t' a] [_ Hslot]. cbn in *. destruct a; try discriminate; reflexivity.
      + rewrite Hkeep; [exact Hn |].
        intros ->. destruct Hinv as [_ _ _ Hhh _ _ _].
        destruct (Hhh n Hlock) as [pc [Hpc Hin]].
        rewrite Hn in Hpc. injection Hpc as <-. discriminate.
    - exists [], [], c. repeat split; auto. }
  destruct Hfree as [evs0 [tr0 [c0 [Hrun0 [Hnone [Htr0 Hn0]]]]]].
  destruct (upload_by_turns env n c0 request_data now Hnone Hn0)
    as [evs1 [tr1 [c1 [r [Hrun1 [Hall [Hupload [Hdone _]]]]]]]].
  exists (evs0 ++ evs1), (tr0 ++ tr1), c1, r.
  split; [exact (exec_all_app env evs0 c evs1 tr0 c0 tr1 c1 Hrun0 Hrun1) |].
  split; [exact Hdone |].
  split.
  - apply Forall_app. split; [exact Htr0 |].
    exact (handler_turns_no_io env n now evs1 c0 tr1 c1 Hall Hrun1).
  - intros st. rewrite (upload_answer env request_data st (globals c0)), Hupload.
    reflexivity.
Qed.

(** In the toy world: the upload arrives while the worker is inside its
    block with an earlier frame. *)
Lemma upload_never_waits_for_processing_witness :
  exists evs tr c' r,
    exec_all Toy.normal
      {| globals := with_slot initial_state (Some (Toy.pixel x01 x02 x03));
         frame_lock := Some Worker;
         worker := W_copy;
         handlers := [H_responded (text_response "OK" 200);
                      H_decode [xff; x04; x05; x06]];
         finished := [] |}
      evs = Some (tr, c') /\
    nth_error (handlers c') 1 = Some (H_responded r) /\
    Forall (fun ta => external_io (snd ta) = false) tr /\
    (forall st, fst (upload Toy.normal [xff; x04; x05; x06] st) = Ok r).
Proof.
  apply (upload_never_waits_for_processing Toy.normal _ 1 [xff; x04; x05; x06]).
  - apply (exec_all_reachable Toy.normal
             [arrives (POST_upload [xff; x01; x02; x03]);
              turn (Handler 0) 1; turn (Handler 0) 1; turn (Handler 0) 1;
              turn (Handler 0) 1; turn (Handler 0) 1;
              arrives (POST_upload [xff; x04; x05; x06]);
              turn Worker 2; turn Worker 2]
             initial_config
             [(Handler 0, call_imdecode); (Handler 0, acquire_lock);
              (Handler 0, store_slot); (Handler 0, release_lock);
              (Handler 0, return_response);
              (Worker, test_slot); (Worker, acquire_lock)]).
    + apply reachable_initial.
    + lazy -[np_zeros]. reflexivity.
  - reflexivity.
Defined.

(** ** The life of the worker *)

Lemma step_handler_keeps_worker env n c a c' :
  step_handler env n c = Some (a, c') -> worker c' = worker c.
Proof.
  unfold step_handler.
  destruct (nth_error (handlers c) n) as [pc |]; [| discriminate].
  destruct pc as [| request_data | frame | frame | | r | r]; try discriminate.
  - destruct (latest env (globals c)) as [[r | e] st]; intros H; injection H as _ <-; reflexivity.
  - destruct (imdecode env request_data) as [[frame |] | e]; cbn;
      intros H; injection H as _ <-; reflexivity.
  - destruct (frame_lock c); [discriminate |]. intros H; injection H as _ <-; reflexivity.
  - cbn. intros H; injection H as _ <-; reflexivity.
  - intros H; injection H as _ <-; reflexivity.
  - intros H; injection H as _ <-; reflexivity.
Qed.

Lemma step_alert_keeps_worker env n c a c' :
  step_alert env n c = Some (a, c') -> worker c' = worker c.
Proof.
  unfold step_alert.
  destruct (existsb (Nat.eqb n) (finished c)); [discriminate |].
  destruct (nth_error (threads (globals c)) n) as [t |]; [| discriminate].
  destruct (run_target env t (globals c)) as [r st].
  intros H. injection H as _ <-. reflexivity.
Qed.

(** A full pose holds the four landmarks. *)
Lemma estimator_delivers_answers env frame :
  estimator_delivers env frame = true -> estimator_answers env frame = true.
Proof.
  unfold estimator_delivers, estimator_answers, POSE_LANDMARKS.
  destruct (pose_process env (cvtColor_BGR2RGB env frame)) as [[lm |] | e];
    [| reflexivity | discriminate].
  intros Hlen. apply Nat.eqb_eq in Hlen.
  destruct (nth_error lm LEFT_WRIST) eqn:Hlw.
  2:{ apply nth_error_None in Hlw. unfold LEFT_WRIST in Hlw. lia. }
  destruct (nth_error lm LEFT_SHOULDER) eqn:Hls.
  2:{ apply nth_error_None in Hls. unfold LEFT_SHOULDER in Hls. lia. }
  destruct (nth_error lm RIGHT_WRIST) eqn:Hrw.
  2:{ apply nth_error_None in Hrw. unfold RIGHT_WRIST in Hrw. lia. }
  destruct (nth_error lm RIGHT_SHOULDER) eqn:Hrs.
  2:{ apply nth_error_None in Hrs. unfold RIGHT_SHOULDER in Hrs. lia. }
  reflexivity.
Qed.

(** X11.  As long as the estimator, on every frame, reports no pose or a
    pose of all 33 landmarks (and the OpenCV calls and the drawer on such
    a pose do not raise, which the embedding takes for granted), the
    worker thread never ends, whatever is uploaded and however the
    threads take turns: the copy at line 138 never meets an empty slot,
    and the four lookups of lines 110-111 are within the pose. *)
Theorem worker_survives_while_estimator_answers :
  forall env c,
    (forall frame, estimator_delivers env frame = true) ->
    reachable env c ->
    ended (worker c) = false.
Proof.
  intros env c Hdelivers Hreach.
  assert (Hanswers : forall frame, estimator_answers env frame = true)
    by (intros frame; apply estimator_delivers_answers, Hdelivers).
  induction Hreach as [| c ev c' Hreach IH Hexec].
  - reflexivity.
  - pose proof (reachable_discipline env c Hreach) as Hinv.
    destruct ev as [r | t now]; cbn [exec] in Hexec.
    + injection Hexec as <-. exact IH.
    + destruct (step_thread env t now c) as [[a c1] |] eqn:Hstep; [| discriminate].
      injection Hexec as <-.
      destruct t as [| n | n]; cbn [step_thread] in Hstep.
      * unfold step_worker in Hstep.
        destruct (worker c) as [| | | frame | frame | frame | | e0] eqn:Hpc.
        -- destruct (latest_frame_to_process (globals c));
             injection Hstep as _ <-; reflexivity.
        -- destruct (frame_lock c); [discriminate |].
           injection Hstep as _ <-. reflexivity.
        -- destruct Hinv as [_ _ _ _ _ Hfull _].
           destruct (latest_frame_to_process (globals c)) as [frame |] eqn:Hslot.
           ++ cbn in Hstep. injection Hstep as _ <-. reflexivity.
           ++ exfalso. apply Hfull; [right; exact Hpc | reflexivity].
        -- cbn in Hstep. injection Hstep as _ <-. reflexivity.
        -- injection Hstep as _ <-. reflexivity.
        -- destruct (process_frame_alerts env now frame (globals c) (Hanswers frame))
             as [st [Hrun _]].
           rewrite Hrun in Hstep. injection Hstep as _ <-. reflexivity.
        -- injection Hstep as _ <-. reflexivity.
        -- discriminate.
      * rewrite (step_handler_keeps_worker env n c a c1 Hstep). exact IH.
      * rewrite (step_alert_keeps_worker env n c a c1 Hstep). exact IH.
Qed.

(** In the toy world with an estimator that sees raised hands in every
    frame: an upload has been processed, the alert threads are started,
    and the worker is back at its test. *)
Lemma worker_survives_while_estimator_answers_witness :
  exists tr c,
    exec_all (Toy.with_estimator (fun _ => Ok (Some Toy.raised))) initial_config
      [arrives (POST_upload [xff; x01; x02; x03]);
       turn (Handler 0) 1; turn (Handler 0) 1; turn (Handler 0) 1;
       turn (Handler 0) 1; turn (Handler 0) 1;
       turn Worker 2; turn Worker 2; turn Worker 2; turn Worker 2;
       turn Worker 2; turn Worker 2] = Some (tr, c) /\
    threads (globals c) = [send_email_target (frame_path_of 2); send_sms_target] /\
    ended (worker c) = false.
Proof.
  eexists. eexists. split; [lazy -[np_zeros]; reflexivity |].
  split; [reflexivity |].
  apply (worker_survives_while_estimator_answers
           (Toy.with_estimator (fun _ => Ok (Some Toy.raised)))).
  - intros frame. reflexivity.
  - eapply (exec_all_reachable _
              [arrives (POST_upload [xff; x01; x02; x03]);
               turn (Handler 0) 1; turn (Handler 0) 1; turn (Handler 0) 1;
               turn (Handler 0) 1; turn (Handler 0) 1;
               turn Worker 2; turn Worker 2; turn Worker 2; turn Worker 2;
               turn Worker 2; turn Worker 2]);
      [apply reachable_initial |].
    lazy -[np_zeros]. reflexivity.
Defined.

(** ** Alerts started, run and sent *)

(** An alert function hands at most one message to its transport. *)
Lemma run_target_delivers_at_most_one env t st :
  exists m delivered,
    run_target env t st = (Ok tt, logged st m delivered) /\
    List.length delivered <= 1.
Proof.
  destruct t as [image_path |]; cbn [run_target].
  - destruct (disk_lookup (disk st) image_path) as [content |] eqn:Hfile.
    + rewrite (send_email_steps env image_path st content Hfile).
      destruct (smtp_connect env) as [[] | e]; [| eexists; eexists; split; [reflexivity | cbn; lia]].
      destruct (smtp_starttls env) as [[] | e]; [| eexists; eexists; split; [reflexivity | cbn; lia]].
      destruct (smtp_login env _ _) as [[] | e]; [| eexists; eexists; split; [reflexivity | cbn; lia]].
      destruct (smtp_send_message env _) as [[] | e]; [| eexists; eexists; split; [reflexivity | cbn; lia]].
      destruct (smtp_quit env) as [[] | e]; eexists; eexists; split; try reflexivity; cbn; lia.
    + rewrite (send_email_no_file env image_path st Hfile).
      eexists. eexists. split; [reflexivity | cbn; lia].
  - unfold send_sms, send_sms_try, logged. unfold_monad.
    destruct (TwilioClient env) as [Client |]; run.
    2:{ exists TwilioNotInstalled, []. rewrite app_nil_r. split; [reflexivity | cbn; lia]. }
    destruct (Client (TWILIO_SID env) (TWILIO_AUTH env)) as [client | e]; run.
    2:{ exists (SmsFailed e), []. rewrite app_nil_r. split; [reflexivity | cbn; lia]. }
    destruct (messages_create client _ _ _) as [sid | e]; run.
    + eexists. eexists. split; [reflexivity | cbn; lia].
    + exists (SmsFailed e), []. rewrite app_nil_r. split; [reflexivity | cbn; lia].
Qed.

Lemma alert_dispatches_length tss :
  List.length (flat_map alert_dispatch tss) = 2 * List.length tss.
Proof.
  induction tss as [| ts rest IH]; cbn [flat_map List.length alert_dispatch app].
  - reflexivity.
  - rewrite IH. lia.
Qed.

Lemma skipn_length_app {A} (l d : list A) : skipn (List.length l) (l ++ d) = d.
Proof.
  rewrite skipn_app, skipn_all, Nat.sub_diag. reflexivity.
Qed.

(** The accounting survives a move that keeps the threads, the sent
    messages and the finished threads. *)
Lemma accounting_same c p c' :
  threads (globals c') = threads (globals c) ->
  sent (globals c') = sent (globals c) ->
  finished c' = finished c ->
  dispatch_accounting {| reached := c; starting := p |} ->
  dispatch_accounting {| reached := c'; starting := p |}.
Proof.
  intros Hthreads Hsent Hfinished [Hpairs Hone Honce Hstarted Hsentb].
  cbn [reached starting] in *.
  constructor; cbn [reached starting]; rewrite ?Hthreads, ?Hsent, ?Hfinished; auto.
Qed.

Lemma step_handler_accounts env n c a c' :
  step_handler env n c = Some (a, c') ->
  threads (globals c') = threads (globals c) /\
  sent (globals c') = sent (globals c) /\
  finished c' = finished c.
Proof.
  unfold step_handler.
  destruct (nth_error (handlers c) n) as [pc |]; [| discriminate].
  destruct pc as [| request_data | frame | frame | | r | r]; try discriminate.
  - pose proof (latest_keeps_state env (globals c)) as Hsame.
    destruct (latest env (globals c)) as [[r | e] st]; cbn in Hsame; subst st;
      intros H; injection H as _ <-; repeat split; reflexivity.
  - destruct (imdecode env request_data) as [[frame |] | e]; cbn;
      intros H; injection H as _ <-; repeat split; reflexivity.
  - destruct (frame_lock c); [discriminate |].
    intros H; injection H as _ <-; repeat split; reflexivity.
  - cbn. intros H; injection H as _ <-; repeat split; reflexivity.
  - intros H; injection H as _ <-; repeat split; reflexivity.
  - intros H; injection H as _ <-; repeat split; reflexivity.
Qed.

Lemma accounting_step_alert env n c p a c' :
  dispatch_accounting {| reached := c; starting := p |} ->
  step_alert env n c = Some (a, c') ->
  dispatch_accounting {| reached := c'; starting := p |}.
Proof.
  intros [Hpairs Hone Honce Hstarted Hsentb] Hstep.
  cbn [reached starting] in *. unfold step_alert in Hstep.
  destruct (existsb (Nat.eqb n) (finished c)) eqn:Hran; [discriminate |].
  destruct (nth_error (threads (globals c)) n) as [t |] eqn:Hn; [| discriminate].
  destruct (run_target_delivers_at_most_one env t (globals c)) as [m [d [Hrun Hd]]].
  rewrite Hrun in Hstep. injection Hstep as _ <-.
  assert (Hfresh : ~ In n (finished c)).
  { intros Hin.
    assert (existsb (Nat.eqb n) (finished c) = true).
    { apply existsb_exists. exists n. split; [exact Hin | apply Nat.eqb_refl]. }
    congruence. }
  constructor;
    cbn [reached starting with_finished with_globals globals finished logged threads sent].
  - exact Hpairs.
  - exact Hone.
  - constructor; assumption.
  - intros k [<- | Hin].
    + apply nth_error_Some. congruence.
    + apply Hstarted. exact Hin.
  - rewrite length_app. cbn [List.length]. lia.
Qed.

(** The turn of the worker that runs [process_frame] up to the first
    thread start. *)
Lemma accounting_process_frame env now c frame r st' :
  process_frame env now frame (globals c) = (r, st') ->
  forall pc,
    dispatch_accounting {| reached := c; starting := [] |} ->
    dispatch_accounting (hold_back (globals c) (with_worker (with_globals c st') pc)).
Proof.
  intros Hrun pc [[tss Htss] Hone Honce Hstarted Hsentb].
  cbn [reached starting] in *. rewrite app_nil_r in Htss.
  destruct (process_frame_effect env now frame (globals c))
    as [r0 [st0 [Hrun0 [_ [Hsent [_ Hthreads]]]]]].
  rewrite Hrun in Hrun0. injection Hrun0 as <- <-.
  unfold hold_back. cbn [with_worker with_globals globals].
  destruct Hthreads as [Hsame | Hmore].
  - rewrite Hsame, skipn_all.
    constructor; cbn [reached starting with_worker with_globals globals finished].
    + exists tss. rewrite app_nil_r. congruence.
    + cbn. lia.
    + exact Honce.
    + rewrite Hsame. exact Hstarted.
    + rewrite Hsent. exact Hsentb.
  - rewrite Hmore, skipn_length_app. unfold alert_dispatch.
    constructor;
      cbn [reached starting with_worker with_globals with_threads globals finished
           threads sent].
    + exists (tss ++ [now]). rewrite flat_map_app, <- Htss. cbn [flat_map alert_dispatch].
      rewrite app_nil_r, <- app_assoc. reflexivity.
    + cbn. lia.
    + exact Honce.
    + intros n Hin. specialize (Hstarted n Hin). rewrite length_app. lia.
    + rewrite Hsent. exact Hsentb.
Qed.

Lemma accounting_staged_step env t now s a s' :
  dispatch_accounting s ->
  staged_step env t now s = Some (a, s') ->
  dispatch_accounting s'.
Proof.
  intros Hacc Hstep. destruct s as [c p]. unfold staged_step in Hstep.
  cbn [reached starting] in Hstep.
  destruct t as [| n | n].
  - destruct p as [| next rest].
    + unfold step_worker in Hstep.
      destruct (worker c) as [| | | frame | frame | frame | | e].
      * destruct (latest_frame_to_process (globals c));
          injection Hstep as _ <-; apply (accounting_same c); auto.
      * destruct (frame_lock c); [discriminate |].
        injection Hstep as _ <-. apply (accounting_same c); auto.
      * destruct (copy_of (latest_frame_to_process (globals c)) (globals c)) as [[frame | e] st];
          injection Hstep as _ <-; apply (accounting_same c); auto.
      * cbn in Hstep. injection Hstep as _ <-. apply (accounting_same c); auto.
      * injection Hstep as _ <-. apply (accounting_same c); auto.
      * destruct (process_frame env now frame (globals c)) as [[[] | e] st'] eqn:Hrun;
          injection Hstep as _ <-;
          eapply accounting_process_frame; eassumption.
      * injection Hstep as _ <-. apply (accounting_same c); auto.
      * discriminate.
    + (* line 130 *)
      cbn in Hstep. injection Hstep as _ <-.
      destruct Hacc as [[tss Htss] Hone Honce Hstarted Hsentb].
      cbn [reached starting] in *.
      constructor; cbn [reached starting with_globals globals finished threads sent].
      * exists tss. rewrite <- app_assoc. exact Htss.
      * cbn [List.length] in Hone. lia.
      * exact Honce.
      * intros k Hin. specialize (Hstarted k Hin). rewrite length_app. lia.
      * exact Hsentb.
  - cbn [step_thread] in Hstep.
    destruct (step_handler env n c) as [[a' c'] |] eqn:Hh; [| discriminate].
    destruct (step_handler_accounts env n c a' c' Hh) as [Ht [Hs Hf]].
    destruct p; injection Hstep as _ <-; apply (accounting_same c); auto.
  - cbn [step_thread] in Hstep.
    destruct (step_alert env n c) as [[a' c'] |] eqn:Ha; [| discriminate].
    destruct p; injection Hstep as _ <-;
      eapply accounting_step_alert; eassumption.
Qed.

(** At every point of every run the accounting holds. *)
Lemma staged_reachable_accounting env s :
  staged_reachable env s -> dispatch_accounting s.
Proof.
  induction 1 as [| s ev s' _ IH Hexec].
  - constructor; cbn.
    + exists []. reflexivity.
    + lia.
    + constructor.
    + intros n [].
    + lia.
  - destruct ev as [r | t now]; cbn [staged_exec] in Hexec.
    + injection Hexec as <-. destruct s as [c p].
      apply (accounting_same c); auto.
    + destruct (staged_step env t now s) as [[a s1] |] eqn:Hstep; [| discriminate].
      injection Hexec as <-. eapply accounting_staged_step; eassumption.
Qed.

Lemma staged_exec_all_reachable env evs :
  forall s s',
    staged_reachable env s -> staged_exec_all env s evs = Some s' ->
    staged_reachable env s'.
Proof.
  induction evs as [| ev rest IH]; intros s s' Hs Hrun; cbn [staged_exec_all] in Hrun.
  - injection Hrun as <-. exact Hs.
  - destruct (staged_exec env s ev) as [s1 |] eqn:Hexec; [| discriminate].
    eapply IH; [| exact Hrun].
    eapply staged_reachable_exec; eassumption.
Qed.

(** X12.  At every point of every run, the point between the two thread
    starts of lines 129 and 130 included: the threads started, together
    with the SMS thread still to be started, are whole alert dispatches,
    each an email thread followed by the SMS thread of the same cycle;
    and the messages that have left are no more than the alert threads
    that have run, which are no more than the threads started, which are
    no more than two per dispatch. *)
Theorem notifications_bounded_by_dispatches :
  forall env s,
    staged_reachable env s ->
    exists tss,
      threads (globals (reached s)) ++ starting s = flat_map alert_dispatch tss /\
      List.length (starting s) <= 1 /\
      List.length (sent (globals (reached s))) <= List.length (finished (reached s)) /\
      List.length (finished (reached s)) <= List.length (threads (globals (reached s))) /\
      List.length (threads (globals (reached s))) <= 2 * List.length tss.
Proof.
  intros env s Hreach.
  destruct (staged_reachable_accounting env s Hreach)
    as [[tss Htss] Hone Honce Hstarted Hsentb].
  exists tss. split; [exact Htss |]. split; [exact Hone |]. split; [exact Hsentb |].
  split.
  - rewrite <- (length_seq (List.length (threads (globals (reached s)))) 0).
    apply NoDup_incl_length; [exact Honce |].
    intros n Hin. apply in_seq. specialize (Hstarted n Hin). lia.
  - rewrite <- alert_dispatches_length, <- Htss, length_app. lia.
Qed.

(** In the toy world: the worker has started the email thread of an alert
    and not yet the SMS thread; the email thread runs at once.  One thread
    started, one run, one message sent, the SMS thread still to come. *)
Lemma notifications_bounded_by_dispatches_witness :
  exists s tss,
    staged_exec_all Toy.normal initial_staged
      [arrives (POST_upload [xff; x00; x00; x01]);
       turn (Handler 0) 1; turn (Handler 0) 1; turn (Handler 0) 1;
       turn (Handler 0) 1; turn (Handler 0) 1;
       turn Worker 2; turn Worker 2; turn Worker 2; turn Worker 2;
       turn Worker 2; turn Worker 2;
       turn (Alert 0) 3] = Some s /\
    threads (globals (reached s)) = [send_email_target (frame_path_of 2)] /\
    starting s = [send_sms_target] /\
    finished (reached s) = [0] /\
    List.length (sent (globals (reached s))) = 1 /\
    threads (globals (reached s)) ++ starting s = flat_map alert_dispatch tss /\
    List.length (starting s) <= 1 /\
    List.length (sent (globals (reached s))) <= List.length (finished (reached s)) /\
    List.length (finished (reached s)) <= List.length (threads (globals (reached s))) /\
    List.length (threads (globals (reached s))) <= 2 * List.length tss.
Proof.
  eexists.
  match goal with
  | |- exists tss, ?run = Some ?s /\ _ =>
      assert (Hrun : run = Some s) by (lazy -[np_zeros]; reflexivity)
  end.
  destruct (notifications_bounded_by_dispatches Toy.normal _
              (staged_exec_all_reachable Toy.normal _ _ _
                 (staged_reachable_initial Toy.normal) Hrun))
    as [tss Hbound].
  exists tss. split; [exact Hrun |].
  repeat (split; [reflexivity |]). exact Hbound.
Defined.

(** ** Coordinates that are not numbers *)

Lemma ltb_nan_l a b : Prim2SF a = S754_nan -> (a <? b)%float = false.
Proof. intros H. rewrite ltb_spec, H. reflexivity. Qed.

Lemma ltb_nan_r a b : Prim2SF b = S754_nan -> (a <? b)%float = false.
Proof.
  intros H. rewrite ltb_spec, H.
  destruct (Prim2SF a) as [s | s | | s m e]; reflexivity.
Qed.

Lemma add_nan_l a b : Prim2SF a = S754_nan -> Prim2SF (a + b)%float = S754_nan.
Proof. intros H. rewrite add_spec, H. reflexivity. Qed.

(** A side with a NaN height is not raised. *)
Lemma side_with_nan_not_raised wrist shoulder :
  y wrist = nan \/ y shoulder = nan -> side_raised wrist shoulder = false.
Proof.
  unfold side_raised. intros [H | H]; rewrite H.
  - apply ltb_nan_l. apply add_nan_l. reflexivity.
  - apply ltb_nan_r. reflexivity.
Qed.

(** X13.  A pose in which one of the four heights is NaN never raises the
    alert: the comparison of line 119 is false on that side, whatever the
    other coordinates are. *)
Theorem nan_height_never_raises_alert :
  forall lw ls rw rs,
    y lw = nan \/ y ls = nan \/ y rw = nan \/ y rs = nan ->
    hands_up_of lw ls rw rs = false.
Proof.
  intros lw ls rw rs H. rewrite hands_up_of_sides.
  destruct H as [H | [H | [H | H]]].
  - rewrite (side_with_nan_not_raised lw ls); [reflexivity | left; exact H].
  - rewrite (side_with_nan_not_raised lw ls); [reflexivity | right; exact H].
  - rewrite (side_with_nan_not_raised rw rs); [apply andb_false_r | left; exact H].
  - rewrite (side_with_nan_not_raised rw rs); [apply andb_false_r | right; exact H].
Qed.

Lemma nan_height_never_raises_alert_witness :
  hands_up_of (mk_landmark 0.5 0.10 0 1) (mk_landmark 0.5 0.30 0 1)
              (mk_landmark 0.5 0.10 0 1) (mk_landmark 0.5 nan 0 1) = false.
Proof.
  apply nan_height_never_raises_alert.
  right. right. right. reflexivity.
Defined.
